(** * Objective-C stub fixer: a shallow embedding of [objc-stub-fixer.py]

    The script scans the named addresses of the [__TEXT] segment of a
    disassembled image, recognises the five-instruction ARM64 stub
    [adrp / ldr / adrp / ldr / br], resolves the selector string the stub
    loads, and renames the procedure after it.

    The embedding follows the Python source function by function.  Python
    integers are [Z], Python [str] values are sequences of Unicode code
    points, exceptions are explicit, and the one unbounded loop
    ([while True] in [read_c_string]) is driven by a fuel argument. *)

From Stdlib Require Import ZArith String Ascii List Bool Lia.
From stdpp Require Import base option list gmap.

Local Open Scope Z_scope.

(** ** Python values, exceptions and outcomes *)

(** The exception classes the script can meet.  All of them derive from
    [Exception], so the driver's [except Exception] clause catches each
    one.  [HostError] stands for whatever the disassembler itself raises. *)
Inductive exn : Type :=
  | IndexError
  | ValueError
  | TypeError
  | UnicodeDecodeError
  | HostError.

(** Outcome of a Python call that returns: a value or a raised exception. *)
Inductive res (A : Type) : Type :=
  | Ret (a : A)
  | Raise (e : exn).
Arguments Ret {A} a.
Arguments Raise {A} e.

(** Outcome of a call that runs the [while True] loop under a bound on the
    number of iterations: [Done r] when the call finished with [r],
    [OutOfFuel] when the bound was reached first. *)
Inductive comp (A : Type) : Type :=
  | Done (r : res A)
  | OutOfFuel.
Arguments Done {A} r.
Arguments OutOfFuel {A}.

#[global] Instance res_ret : MRet res := fun A a => Ret a.
#[global] Instance res_bind : MBind res := fun A B k m =>
  match m with
  | Ret a => k a
  | Raise e => Raise e
  end.

#[global] Instance comp_ret : MRet comp := fun A a => Done (Ret a).
#[global] Instance comp_bind : MBind comp := fun A B k m =>
  match m with
  | Done (Ret a) => k a
  | Done (Raise e) => Done (Raise e)
  | OutOfFuel => OutOfFuel
  end.

(** A computation given as a function of its fuel terminates when some
    amount of fuel lets it finish. *)
Definition terminates {A : Type} (c : nat -> comp A) : Prop :=
  exists fuel r, c fuel = Done r.

(** A Python [str]: the sequence of its code points. *)
Definition pystr : Type := list Z.

(** Code points of an ASCII literal of the source. *)
Fixpoint py (s : string) : pystr :=
  match s with
  | EmptyString => []
  | String c s' => Z.of_N (N_of_ascii c) :: py s'
  end.
Arguments py s%_string.

(** What a memory read of the host hands back: an integer, or the boolean
    [False] with which a host answers a read it cannot serve.  The script
    looks at such a value through [byte == 0] and [if selector_ptr:]. *)
Inductive hostval : Type :=
  | HInt (z : Z)
  | HFalse.

(** [v == 0] *)
Definition eq_zero (v : hostval) : bool :=
  match v with
  | HInt z => z =? 0
  | HFalse => true
  end.

(** Truth value of [v] in an [if]. *)
Definition truthy (v : hostval) : bool :=
  match v with
  | HInt z => negb (z =? 0)
  | HFalse => false
  end.

(** The integer a value denotes ([False] is the integer [0]). *)
Definition int_of (v : hostval) : Z :=
  match v with
  | HInt z => z
  | HFalse => 0
  end.

(** ** String operations of the Python runtime *)

(** [s.startswith(prefix)] *)
Fixpoint startswith (s prefix : pystr) : bool :=
  match prefix, s with
  | [], _ => true
  | p :: prefix', c :: s' => (c =? p) && startswith s' prefix'
  | _ :: _, [] => false
  end.

(** [s.split(sep)] for a separator of one character, which is the only
    form the script uses.  The result always has at least one element. *)
Fixpoint split (sep : Z) (s : pystr) : list pystr :=
  match s with
  | [] => [[]]
  | c :: s' =>
      if c =? sep then [] :: split sep s'
      else match split sep s' with
           | part :: parts => (c :: part) :: parts
           | [] => [[c]]
           end
  end.

(** [str.isspace] on one code point: the white space of the Unicode
    character database. *)
Definition unicode_isspace (c : Z) : bool :=
  ((9 <=? c) && (c <=? 13)) || ((28 <=? c) && (c <=? 32))
  || (c =? 133) || (c =? 160) || (c =? 5760)
  || ((8192 <=? c) && (c <=? 8202))
  || (c =? 8232) || (c =? 8233) || (c =? 8239) || (c =? 8287) || (c =? 12288).

Fixpoint lstrip (s : pystr) : pystr :=
  match s with
  | c :: s' => if unicode_isspace c then lstrip s' else s
  | [] => []
  end.

(** [s.strip()] *)
Definition strip (s : pystr) : pystr := rev (lstrip (rev (lstrip s))).

(** [s[1:]] *)
Definition slice_from_1 (s : pystr) : pystr := drop 1 s.

(** [str(x)] for an operand that is a [str] or [None]. *)
Definition str (x : option pystr) : pystr :=
  match x with
  | Some s => s
  | None => py "None"
  end.

(** [l[i]] on a list: [IndexError] when out of range. *)
Definition index {A : Type} (l : list A) (i : nat) : res A :=
  match l !! i with
  | Some x => Ret x
  | None => Raise IndexError
  end.

(** ** [int(text, 16)]

    CPython first maps the text to ASCII (white space of the character
    database becomes a blank, a decimal digit of any script becomes the
    ASCII digit of the same value, any other character beyond ASCII makes
    the literal invalid) and then reads: blanks, an optional sign, an
    optional [0x] or [0X] which may be followed by one underscore, hex
    digits with single underscores between them, blanks.  Everything else
    is a [ValueError]. *)

(** [Py_ISSPACE] on an ASCII character. *)
Definition ascii_isspace (c : Z) : bool :=
  ((9 <=? c) && (c <=? 13)) || (c =? 32).

(** Value of a digit in base 16, [None] for any other character. *)
Definition digit_value (c : Z) : option Z :=
  if (48 <=? c) && (c <=? 57) then Some (c - 48)
  else if (97 <=? c) && (c <=? 102) then Some (c - 87)
  else if (65 <=? c) && (c <=? 70) then Some (c - 55)
  else None.

Definition underscore : Z := 95.

(** The digit scan: [prev] is the character read last, [acc] the value so
    far.  Two underscores in a row or an underscore at the end are
    rejected; the scan stops at the first character that is neither a digit
    nor an underscore and returns the rest of the text. *)
Fixpoint scan_digits (prev acc : Z) (s : pystr) : option (Z * pystr) :=
  match s with
  | c :: s' =>
      if c =? underscore then
        if prev =? underscore then None else scan_digits c acc s'
      else
        match digit_value c with
        | Some d => scan_digits c (16 * acc + d) s'
        | None => if prev =? underscore then None else Some (acc, s)
        end
  | [] => if prev =? underscore then None else Some (acc, [])
  end.

(** The scan must start on a digit: no leading underscore, no empty run. *)
Definition long_from_string_base (s : pystr) : option (Z * pystr) :=
  match s with
  | c :: _ =>
      match digit_value c with
      | Some _ => scan_digits 0 0 s
      | None => None
      end
  | [] => None
  end.

Fixpoint skip_blanks (s : pystr) : pystr :=
  match s with
  | c :: s' => if ascii_isspace c then skip_blanks s' else s
  | [] => []
  end.

(** [PyLong_FromString] in base 16, on text that is already ASCII. *)
Definition PyLong_FromString (s : pystr) : option Z :=
  let s1 := skip_blanks s in
  let '(sign, s2) :=
    match s1 with
    | 43 :: t => (1, t)
    | 45 :: t => (-1, t)
    | _ => (1, s1)
    end in
  let s3 :=
    match s2 with
    | 48 :: x :: t =>
        if (x =? 120) || (x =? 88) then
          match t with
          | 95 :: t' => t'
          | _ => t
          end
        else s2
    | _ => s2
    end in
  match long_from_string_base s3 with
  | Some (v, rest) =>
      match skip_blanks rest with
      | [] => Some (sign * v)
      | _ :: _ => None
      end
  | None => None
  end.

(** The ASCII image of one character, given the decimal digit value the
    character database assigns to characters beyond ASCII; [63] is [?],
    which no numeral contains. *)
Definition to_ascii (unicode_decimal : Z -> option Z) (c : Z) : Z :=
  if c <? 128 then c
  else if unicode_isspace c then 32
  else match unicode_decimal c with
       | Some d => if (0 <=? d) && (d <=? 9) then 48 + d else 63
       | None => 63
       end.

(** [int(s, 16)] *)
Definition int16 (unicode_decimal : Z -> option Z) (s : pystr) : res Z :=
  match PyLong_FromString (map (to_ascii unicode_decimal) s) with
  | Some n => Ret n
  | None => Raise ValueError
  end.

(** The decimal digits beyond ASCII of version 14.0 of the character
    database: each entry starts a run of ten code points with the values
    0 to 9.  The development is parametric in this table; the instance
    serves the concrete runs. *)
Definition decimal_runs : list Z :=
  [ 0x660; 0x6f0; 0x7c0; 0x966; 0x9e6; 0xa66; 0xae6; 0xb66; 0xbe6; 0xc66;
    0xce6; 0xd66; 0xde6; 0xe50; 0xed0; 0xf20; 0x1040; 0x1090; 0x17e0;
    0x1810; 0x1946; 0x19d0; 0x1a80; 0x1a90; 0x1b50; 0x1bb0; 0x1c40; 0x1c50;
    0xa620; 0xa8d0; 0xa900; 0xa9d0; 0xa9f0; 0xaa50; 0xabf0; 0xff10;
    0x104a0; 0x10d30; 0x11066; 0x110f0; 0x11136; 0x111d0; 0x112f0; 0x11450;
    0x114d0; 0x11650; 0x116c0; 0x11730; 0x118e0; 0x11950; 0x11c50; 0x11d50;
    0x11da0; 0x16a60; 0x16ac0; 0x16b50; 0x1d7ce; 0x1d7d8; 0x1d7e2; 0x1d7ec;
    0x1d7f6; 0x1e140; 0x1e2f0; 0x1e950; 0x1fbf0 ].

Definition ucd_decimal (c : Z) : option Z :=
  match List.find (fun start => (start <=? c) && (c <? start + 10)) decimal_runs with
  | Some start => Some (c - start)
  | None => None
  end.

(** ** [bytes.decode()]: strict UTF-8 *)

Definition continuation (b : Z) : bool := (128 <=? b) && (b <=? 191).

Definition between (lo hi b : Z) : bool := (lo <=? b) && (b <=? hi).

(** Decoding stops with [None] at the first ill-formed sequence: a stray
    or missing continuation byte, an overlong form, a surrogate, or a code
    point beyond U+10FFFF. *)
Fixpoint utf8_decode (bs : list Z) : option pystr :=
  match bs with
  | [] => Some []
  | b0 :: r0 =>
      if between 0 127 b0 then cons b0 <$> utf8_decode r0
      else if between 194 223 b0 then
        match r0 with
        | b1 :: r1 =>
            if continuation b1
            then cons ((b0 - 192) * 64 + (b1 - 128)) <$> utf8_decode r1
            else None
        | _ => None
        end
      else if between 224 239 b0 then
        match r0 with
        | b1 :: b2 :: r2 =>
            if between (if b0 =? 224 then 160 else 128)
                       (if b0 =? 237 then 159 else 191) b1
               && continuation b2
            then cons ((b0 - 224) * 4096 + (b1 - 128) * 64 + (b2 - 128))
                   <$> utf8_decode r2
            else None
        | _ => None
        end
      else if between 240 244 b0 then
        match r0 with
        | b1 :: b2 :: b3 :: r3 =>
            if between (if b0 =? 240 then 144 else 128)
                       (if b0 =? 244 then 143 else 191) b1
               && continuation b2 && continuation b3
            then cons ((b0 - 240) * 262144 + (b1 - 128) * 4096
                       + (b2 - 128) * 64 + (b3 - 128))
                   <$> utf8_decode r3
            else None
        | _ => None
        end
      else None
  end.

(** [result.decode()] *)
Definition decode (bs : list Z) : res pystr :=
  match utf8_decode bs with
  | Some s => Ret s
  | None => Raise UnicodeDecodeError
  end.

(** [result.append(byte)] on a [bytearray]: [ValueError] unless
    [0 <= byte < 256]. *)
Definition bytearray_append (result : list Z) (byte : hostval) : res (list Z) :=
  if between 0 255 (int_of byte) then Ret (result ++ [int_of byte])
  else Raise ValueError.

(** ** The host: what the script asks of the disassembler

    The script runs inside a disassembler and reaches the loaded image only
    through the methods below.  They are the parameters of the embedding;
    the names are the ones the source calls. *)

(** A decoded instruction: [getInstructionString()] and
    [getFormattedArgument(i)], the latter [None] when the instruction has
    no operand at that position. *)
Record Instruction : Type := {
  getInstructionString : pystr;
  getFormattedArgument : Z -> option pystr;
}.

(** A segment: [getInstructionAtAddress(a)] ([None] when nothing decodes
    there) and [getNamedAddresses()]. *)
Record Segment : Type := {
  getInstructionAtAddress : Z -> option Instruction;
  getNamedAddresses : list Z;
}.

(** The document in one state of its symbol table. *)
Record Document : Type := {
  getCurrentSegment : Segment;
  getSegmentByName : pystr -> option Segment;
  getNameAtAddress : Z -> pystr;
  readByte : Z -> res hostval;
  readUInt64LE : Z -> res hostval;
}.

(** *** A document over a byte image *)

(** Bytes [bs] laid out from address [base] on. *)
Fixpoint place (base : Z) (bs : list Z) : gmap Z Z :=
  match bs with
  | [] => ∅
  | b :: bs' => <[base := b]> (place (base + 1) bs')
  end.

(** Fixed-width instructions laid out from address [base] on. *)
Fixpoint place_code (base : Z) (code : list Instruction) : gmap Z Instruction :=
  match code with
  | [] => ∅
  | i :: code' => <[base := i]> (place_code (base + 4) code')
  end.

(** The unsigned integer whose little-endian bytes are [bs]. *)
Fixpoint little_endian (bs : list Z) : Z :=
  match bs with
  | [] => 0
  | b :: bs' => b + 256 * little_endian bs'
  end.

(** The [n] bytes mapped from [a] on, if all of them are. *)
Fixpoint bytes_at (mem : gmap Z Z) (a : Z) (n : nat) : option (list Z) :=
  match n with
  | O => Some []
  | S n' =>
      match mem !! a, bytes_at mem (a + 1) n' with
      | Some b, Some bs => Some (b :: bs)
      | _, _ => None
      end
  end.

Record image : Type := {
  image_code : gmap Z Instruction;
  image_named : list Z;
  image_names : gmap Z pystr;
  image_memory : gmap Z Z;
}.

(** Modelled from the spec: the host's memory and symbol access, which is
    not part of the script.  [read_byte] and [read_uint64_le] read the
    image, the latter assembling eight bytes little-endian, and may fail on
    an unmapped address: [unmapped] is what such a read does, raise or hand
    back a falsy value.  The one code segment is called [__TEXT] and is
    also the current segment. *)
Definition image_document (unmapped : res hostval) (im : image) : Document :=
  let seg :=
    {| getInstructionAtAddress := fun a => image_code im !! a;
       getNamedAddresses := image_named im |} in
  {| getCurrentSegment := seg;
     getSegmentByName := fun name =>
       if decide (name = py "__TEXT") then Some seg else None;
     getNameAtAddress := fun a => default [] (image_names im !! a);
     readByte := fun a =>
       match image_memory im !! a with
       | Some b => Ret (HInt b)
       | None => unmapped
       end;
     readUInt64LE := fun a =>
       match bytes_at (image_memory im) a 8 with
       | Some bs => Ret (HInt (little_endian bs))
       | None => unmapped
       end |}.

(** Modelled from the spec: [set_name_at(address, text)] as a plain update
    of the symbol table that always succeeds. *)
Definition set_name (doc : Document) (a : Z) (name : pystr) : Document * res unit :=
  ({| getCurrentSegment := getCurrentSegment doc;
      getSegmentByName := getSegmentByName doc;
      getNameAtAddress := fun b => if b =? a then name else getNameAtAddress doc b;
      readByte := readByte doc;
      readUInt64LE := readUInt64LE doc |},
   Ret tt).

(** A symbol table that refuses every rename with an exception. *)
Definition set_name_refused (doc : Document) (a : Z) (name : pystr)
  : Document * res unit :=
  (doc, Raise HostError).

(** ** The script *)

(** What the driver loop did at one address, in the order it happened.
    Every constructor but [Skipped] and [NotAStub] is a line the source
    prints. *)
Inductive event : Type :=
  | SegmentNotFound
  | Skipped (address : Z)
  | NotAStub (address : Z)
  | ExtractFailed (address : Z) (name : pystr)
  | AnalyzeFailed (address : Z) (name : pystr) (exc : exn)
  | Renaming (address : Z) (name new_name : pystr)
  | Summary (renamed_functions : Z).

(** The address an event is about. *)
Definition event_address (ev : event) : option Z :=
  match ev with
  | SegmentNotFound | Summary _ => None
  | Skipped a | NotAStub a | ExtractFailed a _ | AnalyzeFailed a _ _
  | Renaming a _ _ => Some a
  end.

Definition is_renaming (ev : event) : bool :=
  match ev with
  | Renaming _ _ _ => true
  | _ => false
  end.

(** How the body of the driver's [try] block ends when it raises nothing:
    with one of its two [continue] statements or with a selector. *)
Inductive analysis : Type :=
  | NotStub
  | NoSelector
  | Resolved (selector : pystr).

Definition is_none {A : Type} (x : option A) : bool :=
  match x with
  | None => true
  | Some _ => false
  end.

(** [None[1:]] is a [TypeError]. *)
Definition subscript_from_1 (x : option pystr) : res pystr :=
  match x with
  | Some s => Ret (slice_from_1 s)
  | None => Raise TypeError
  end.

Definition expected_instructions : list pystr :=
  [py "adrp"; py "ldr"; py "adrp"; py "ldr"; py "br"].

(** [range(5)] *)
Definition range5 : list Z := [0; 1; 2; 3; 4].

Section Script.

(** The decimal digit values of the character database beyond ASCII, and
    the host's [setNameAtAddress]: the document after the call and
    whether the call returned or raised. *)
Variable unicode_decimal : Z -> option Z.
Variable setNameAtAddress : Document -> Z -> pystr -> Document * res unit.

(** The loop of [read_c_string]: one iteration per unit of fuel. *)
Fixpoint read_loop (fuel : nat) (doc : Document) (result : list Z) (address : Z)
  : comp (list Z) :=
  match fuel with
  | O => OutOfFuel
  | S fuel' =>
      byte ← Done (readByte doc address);
      if eq_zero byte then mret result
      else
        result' ← Done (bytearray_append result byte);
        read_loop fuel' doc result' (address + 1)
  end.

Definition read_c_string (fuel : nat) (doc : Document) (address : Z) : comp pystr :=
  result ← read_loop fuel doc [] address;
  Done (decode result).

Definition is_objc_stub (doc : Document) (address : Z) : bool :=
  let seg := getCurrentSegment doc in
  let instructions :=
    map (fun i => getInstructionAtAddress seg (address + i * 4)) range5 in
  if existsb is_none instructions then false
  else
    let instruction_strings :=
      flat_map (fun inst =>
                  match inst with
                  | Some inst => [getInstructionString inst]
                  | None => []
                  end) instructions in
    forallb (fun '(inst, expected) => startswith inst expected)
            (zip instruction_strings expected_instructions).

Definition parse_offset (ldr_inst_offset_str : pystr) : res (option Z) :=
  match
    after ← index (split 91 ldr_inst_offset_str) 1;
    inside ← index (split 93 after) 0;
    let parts := split 44 inside in
    field ← index parts 1;
    int16 unicode_decimal (slice_from_1 (strip field))
  with
  | Ret offset => Ret (Some offset)
  | Raise IndexError | Raise ValueError => Ret None
  | Raise e => Raise e
  end.

Definition get_page_address (adrp_inst : Instruction) : res (option Z) :=
  match
    text ← subscript_from_1 (getFormattedArgument adrp_inst 1);
    int16 unicode_decimal text
  with
  | Ret page_address => Ret (Some page_address)
  | Raise ValueError => Ret None
  | Raise e => Raise e
  end.

Definition get_selector (fuel : nat) (doc : Document) (address : Z)
  : comp (option pystr) :=
  let seg := getCurrentSegment doc in
  let adrp_inst := getInstructionAtAddress seg address in
  let ldr_inst := getInstructionAtAddress seg (address + 4) in
  match adrp_inst, ldr_inst with
  | Some adrp_inst, Some ldr_inst =>
      page ← Done (get_page_address adrp_inst);
      offset ← Done (parse_offset (str (getFormattedArgument ldr_inst 1)));
      match page, offset with
      | Some page, Some offset =>
          let selector_addr := page + offset in
          selector_ptr ← Done (readUInt64LE doc selector_addr);
          if truthy selector_ptr then
            selector ← read_c_string fuel doc (int_of selector_ptr);
            mret (Some selector)
          else mret None
      | _, _ => mret None
      end
  | _, _ => mret None
  end.

(** The body of the [try] block of the driver. *)
Definition analyse (fuel : nat) (doc : Document) (procedure_address : Z)
  : comp analysis :=
  if negb (is_objc_stub doc procedure_address) then mret NotStub
  else
    selector ← get_selector fuel doc procedure_address;
    match selector with
    | Some (c :: s) => mret (Resolved (c :: s))
    | Some [] | None => mret NoSelector
    end.

(** The [for] loop of the driver from the state [doc],
    [renamed_functions]: the events, the document the loop leaves behind,
    and the counter if the loop ran to its end. *)
Fixpoint scan (fuel : nat) (doc : Document) (renamed_functions : Z)
         (addresses : list Z) : list event * Document * comp Z :=
  match addresses with
  | [] => ([], doc, Done (Ret renamed_functions))
  | procedure_address :: rest =>
      let procedure_name := getNameAtAddress doc procedure_address in
      let continue (ev : event) :=
        let '(log, doc', r) := scan fuel doc renamed_functions rest in
        (ev :: log, doc', r) in
      if negb (startswith procedure_name (py "sub_")) then
        continue (Skipped procedure_address)
      else
        match analyse fuel doc procedure_address with
        | OutOfFuel => ([], doc, OutOfFuel)
        | Done (Raise exc) =>
            continue (AnalyzeFailed procedure_address procedure_name exc)
        | Done (Ret NotStub) => continue (NotAStub procedure_address)
        | Done (Ret NoSelector) =>
            continue (ExtractFailed procedure_address procedure_name)
        | Done (Ret (Resolved selector)) =>
            let new_procedure_name := selector ++ py "()" in
            let ev := Renaming procedure_address procedure_name new_procedure_name in
            match setNameAtAddress doc procedure_address new_procedure_name with
            | (doc', Ret _) =>
                let '(log, doc'', r) := scan fuel doc' (renamed_functions + 1) rest in
                (ev :: log, doc'', r)
            | (doc', Raise e) => ([ev], doc', Done (Raise e))
            end
        end
  end.

Definition rename_objc_stubs (fuel : nat) (doc : Document)
  : list event * Document * comp unit :=
  match getSegmentByName doc (py "__TEXT") with
  | None => ([SegmentNotFound], doc, mret tt)
  | Some seg =>
      let '(log, doc', r) := scan fuel doc 0 (getNamedAddresses seg) in
      match r with
      | Done (Ret renamed_functions) =>
          (log ++ [Summary renamed_functions], doc', mret tt)
      | Done (Raise e) => (log, doc', Done (Raise e))
      | OutOfFuel => (log, doc', OutOfFuel)
      end
  end.

End Script.

(** ** Sample images *)

(** An instruction with the given text and formatted operands. *)
Definition instruction (text : pystr) (args : list pystr) : Instruction :=
  {| getInstructionString := text;
     getFormattedArgument := fun i => if i <? 0 then None else args !! Z.to_nat i |}.

(** The stub shape, loading its selector through the cell [0x100018]. *)
Definition stub_adrp : Instruction :=
  instruction (py "adrp       x1, #0x100000") [py "x1"; py "#0x100000"].

Definition stub_ldr : Instruction :=
  instruction (py "ldr        x1, [x8, #0x18]") [py "x1"; py "[x8, #0x18]"].

Definition stub_tail : list Instruction :=
  [ instruction (py "adrp       x16, #0x104000") [py "x16"; py "#0x104000"];
    instruction (py "ldr        x16, [x16, #0x8]") [py "x16"; py "[x16, #0x8]"];
    instruction (py "br         x16") [py "x16"] ].

Definition stub_code : list Instruction := stub_adrp :: stub_ldr :: stub_tail.

(** The same shape with a first instruction that has no second operand. *)
Definition adrp_no_page : Instruction := instruction (py "adrp       x1") [py "x1"].

Definition stub_code_no_page : list Instruction :=
  adrp_no_page :: stub_ldr :: stub_tail.

(** The same shape with a memory operand that lacks its comma. *)
Definition ldr_no_comma : Instruction :=
  instruction (py "ldr        x1, [x8 #0x18]") [py "x1"; py "[x8 #0x18]"].

Definition stub_code_no_comma : list Instruction :=
  stub_adrp :: ldr_no_comma :: stub_tail.

(** The cell [0x100018] points to [0x200000], where the bytes
    ["foo\0"] lie; ["bar\0baz\0"] lies at [0x300000]. *)
Definition sample_memory : gmap Z Z :=
  place 0x100018 [0; 0; 0x20; 0; 0; 0; 0; 0]
  ∪ place 0x200000 [102; 111; 111; 0]
  ∪ place 0x300000 [98; 97; 114; 0; 98; 97; 122; 0].

(** Three procedures: a stub at [0x1000], a stub without page operand at
    [0x2000], a stub at [0x3000]; [0x4000] carries a name the user chose. *)
Definition sample_image : image :=
  {| image_code :=
       place_code 0x1000 stub_code ∪ place_code 0x2000 stub_code_no_page
       ∪ place_code 0x3000 stub_code ∪ place_code 0x4000 stub_code;
     image_named := [0x1000; 0x2000; 0x3000; 0x4000];
     image_names :=
       {[ 0x1000 := py "sub_1000"; 0x2000 := py "sub_2000";
          0x3000 := py "sub_3000"; 0x4000 := py "main" ]};
     image_memory := sample_memory |}.

Definition sample_document : Document :=
  image_document (Raise HostError) sample_image.

(** One procedure [sub_1000] with the given code over the given memory. *)
Definition stub_document (code : list Instruction) (mem : gmap Z Z) : Document :=
  image_document (Raise HostError)
    {| image_code := place_code 0x1000 code;
       image_named := [0x1000];
       image_names := {[ 0x1000 := py "sub_1000" ]};
       image_memory := mem |}.

(** A stub whose pointer cell holds zero. *)
Definition null_document : Document :=
  stub_document stub_code (place 0x100018 [0; 0; 0; 0; 0; 0; 0; 0]).

(** A stub whose memory operand lacks its comma. *)
Definition no_comma_document : Document :=
  stub_document stub_code_no_comma sample_memory.

(** A memory in which every byte is the letter [A]. *)
Definition endless_document : Document :=
  {| getCurrentSegment := getCurrentSegment sample_document;
     getSegmentByName := getSegmentByName sample_document;
     getNameAtAddress := getNameAtAddress sample_document;
     readByte := fun _ => Ret (HInt 65);
     readUInt64LE := readUInt64LE sample_document |}.

(** ** Properties *)

(** The instruction-fetch function the matcher and the resolver use. *)
Definition fetch (doc : Document) (a : Z) : option Instruction :=
  getInstructionAtAddress (getCurrentSegment doc) a.

(** The last statements of [get_selector], from the read of the pointer
    cell on, at a given cell address. *)
Definition dereference (fuel : nat) (doc : Document) (selector_addr : Z)
  : comp (option pystr) :=
  selector_ptr ← Done (readUInt64LE doc selector_addr);
  if truthy selector_ptr then
    selector ← read_c_string fuel doc (int_of selector_ptr);
    mret (Some selector)
  else mret None.

(** The loop of [read_c_string] goes on to the next address after the byte
    at [a]: the read returned a byte other than zero. *)
Definition continues (doc : Document) (a : Z) : bool :=
  match readByte doc a with
  | Ret v => negb (eq_zero v) && between 0 255 (int_of v)
  | Raise _ => false
  end.

(** The shape [...[base,off]...] of a memory operand: [base] and [off] are
    the texts on the two sides of the comma inside the first pair of
    brackets. *)
Definition memory_operand (s base off : pystr) : Prop :=
  exists pre post,
    s = pre ++ [91] ++ base ++ [44] ++ off ++ [93] ++ post
    /\ (91 ∉ pre) /\ (91 ∉ base) /\ (93 ∉ base) /\ (44 ∉ base)
    /\ (91 ∉ off) /\ (93 ∉ off) /\ (44 ∉ off).

(** The offset text of an operand, as [parse_offset] finds it: [off] is
    what follows the first comma after the first opening bracket, up to
    the next bracket or comma or the end of the text.  No closing bracket
    is asked for. *)
Definition offset_text (s off : pystr) : Prop :=
  exists pre base tail,
    s = pre ++ [91] ++ base ++ [44] ++ off ++ tail
    /\ (91 ∉ pre)
    /\ (91 ∉ base) /\ (93 ∉ base) /\ (44 ∉ base)
    /\ (91 ∉ off) /\ (93 ∉ off) /\ (44 ∉ off)
    /\ (tail = [] \/ exists c t, tail = c :: t /\ (c = 91 \/ c = 93 \/ c = 44)).

(** How a scan can end: at the end of the list, with one event per
    address and the counter raised once per rename; by an exception of
    the rename call; or inside an analysis that does not finish. *)
Definition scan_ends
    (unicode_decimal : Z -> option Z)
    (setNameAtAddress : Document -> Z -> pystr -> Document * res unit)
    (fuel : nat) (renamed_functions : Z) (addresses : list Z)
    (out : list event * Document * comp Z) : Prop :=
  let '(log, doc', r) := out in
  match r with
  | Done (Ret n) =>
      n = renamed_functions + Z.of_nat (length (List.filter is_renaming log))
      /\ omap event_address log = addresses
  | Done (Raise e) =>
      exists log0 d a name new_name,
        log = log0 ++ [Renaming a name new_name]
        /\ setNameAtAddress d a new_name = (doc', Raise e)
  | OutOfFuel => exists d a, analyse unicode_decimal fuel d a = OutOfFuel
  end.

(** A rename at one address leaves the names of all others alone. *)
Definition rename_is_local
    (setNameAtAddress : Document -> Z -> pystr -> Document * res unit) : Prop :=
  forall d b name c,
    c <> b ->
    getNameAtAddress (setNameAtAddress d b name).1 c = getNameAtAddress d c.

(** *** Definitions for the further properties *)

(** The bytes [bs], none of them zero, lie in memory from [a] on. *)
Definition bytes_from (doc : Document) (a : Z) (bs : list Z) : Prop :=
  forall (i : nat) b,
    bs !! i = Some b ->
    readByte doc (a + Z.of_nat i) = Ret (HInt b) /\ 0 < b < 256.

(** A character is a hexadecimal digit. *)
Definition hex_digit (c : Z) : Prop := is_Some (digit_value c).

(** The number a run of hexadecimal digits denotes. *)
Definition hex_value (ds : pystr) : Z :=
  fold_left (fun acc c => 16 * acc + default 0 (digit_value c)) ds 0.

(** [text] is a run of hexadecimal digits, with or without the prefix
    [0x] or [0X], and denotes [n]. *)
Definition unsigned_hex (text : pystr) (n : Z) : Prop :=
  exists prefix ds,
    (prefix = [] \/ prefix = py "0x" \/ prefix = py "0X")
    /\ ds <> [] /\ Forall hex_digit ds
    /\ text = prefix ++ ds /\ n = hex_value ds.

(** The same with an optional sign in front. *)
Definition signed_hex (text : pystr) (n : Z) : Prop :=
  unsigned_hex text n
  \/ (exists t, text = 43 :: t /\ unsigned_hex t n)
  \/ (exists t m, text = 45 :: t /\ unsigned_hex t m /\ n = - m).

(** The two steps of [PyLong_FromString] before the digit scan, by name:
    the optional sign, and the optional prefix with its one underscore. *)
Definition split_sign (s1 : pystr) : Z * pystr :=
  match s1 with
  | 43 :: t => (1, t)
  | 45 :: t => (-1, t)
  | _ => (1, s1)
  end.

Definition strip_prefix (s2 : pystr) : pystr :=
  match s2 with
  | 48 :: x :: t =>
      if (x =? 120) || (x =? 88) then
        match t with
        | 95 :: t' => t'
        | _ => t
        end
      else s2
  | _ => s2
  end.

(** The runs of the driver loop as a relation, one rule for each way a
    turn of the loop can go: [scanned fuel doc n addresses log doc' r]
    holds when the loop, started in [doc] with the counter at [n], leaves
    the events [log], the document [doc'] and the outcome [r]. *)
Inductive scanned
    (unicode_decimal : Z -> option Z)
    (setNameAtAddress : Document -> Z -> pystr -> Document * res unit)
    (fuel : nat)
  : Document -> Z -> list Z -> list event -> Document -> comp Z -> Prop :=
  | scanned_end doc n :
      scanned unicode_decimal setNameAtAddress fuel doc n [] [] doc (Done (Ret n))
  | scanned_skipped doc n a rest log doc' r :
      startswith (getNameAtAddress doc a) (py "sub_") = false ->
      scanned unicode_decimal setNameAtAddress fuel doc n rest log doc' r ->
      scanned unicode_decimal setNameAtAddress fuel doc n (a :: rest)
              (Skipped a :: log) doc' r
  | scanned_out_of_fuel doc n a rest :
      startswith (getNameAtAddress doc a) (py "sub_") = true ->
      analyse unicode_decimal fuel doc a = OutOfFuel ->
      scanned unicode_decimal setNameAtAddress fuel doc n (a :: rest) [] doc OutOfFuel
  | scanned_failed doc n a rest exc log doc' r :
      startswith (getNameAtAddress doc a) (py "sub_") = true ->
      analyse unicode_decimal fuel doc a = Done (Raise exc) ->
      scanned unicode_decimal setNameAtAddress fuel doc n rest log doc' r ->
      scanned unicode_decimal setNameAtAddress fuel doc n (a :: rest)
              (AnalyzeFailed a (getNameAtAddress doc a) exc :: log) doc' r
  | scanned_not_a_stub doc n a rest log doc' r :
      startswith (getNameAtAddress doc a) (py "sub_") = true ->
      analyse unicode_decimal fuel doc a = Done (Ret NotStub) ->
      scanned unicode_decimal setNameAtAddress fuel doc n rest log doc' r ->
      scanned unicode_decimal setNameAtAddress fuel doc n (a :: rest)
              (NotAStub a :: log) doc' r
  | scanned_no_selector doc n a rest log doc' r :
      startswith (getNameAtAddress doc a) (py "sub_") = true ->
      analyse unicode_decimal fuel doc a = Done (Ret NoSelector) ->
      scanned unicode_decimal setNameAtAddress fuel doc n rest log doc' r ->
      scanned unicode_decimal setNameAtAddress fuel doc n (a :: rest)
              (ExtractFailed a (getNameAtAddress doc a) :: log) doc' r
  | scanned_renamed doc n a rest selector doc1 u log doc' r :
      startswith (getNameAtAddress doc a) (py "sub_") = true ->
      analyse unicode_decimal fuel doc a = Done (Ret (Resolved selector)) ->
      setNameAtAddress doc a (selector ++ py "()") = (doc1, Ret u) ->
      scanned unicode_decimal setNameAtAddress fuel doc1 (n + 1) rest log doc' r ->
      scanned unicode_decimal setNameAtAddress fuel doc n (a :: rest)
              (Renaming a (getNameAtAddress doc a) (selector ++ py "()") :: log)
              doc' r
  | scanned_rename_raised doc n a rest selector doc1 e :
      startswith (getNameAtAddress doc a) (py "sub_") = true ->
      analyse unicode_decimal fuel doc a = Done (Ret (Resolved selector)) ->
      setNameAtAddress doc a (selector ++ py "()") = (doc1, Raise e) ->
      scanned unicode_decimal setNameAtAddress fuel doc n (a :: rest)
              [Renaming a (getNameAtAddress doc a) (selector ++ py "()")]
              doc1 (Done (Raise e)).

(** A rename puts the new name at its address. *)
Definition rename_applies
    (setNameAtAddress : Document -> Z -> pystr -> Document * res unit) : Prop :=
  forall d a name, getNameAtAddress (setNameAtAddress d a name).1 a = name.

(** The events of a log that report a rename of the address [a]. *)
Definition renamed_in (log : list event) (a : Z) : Prop :=
  exists name new_name, Renaming a name new_name ∈ log.

(** The letters [ab] with no terminator after them, in a host that raises
    on an unmapped read and in one that hands back [False]. *)
Definition cut_off_image : image :=
  {| image_code := place_code 0x1000 stub_code;
     image_named := [0x1000];
     image_names := {[ 0x1000 := py "sub_1000" ]};
     image_memory := place 0x400000 [97; 98] |}.

Definition faulting_document : Document :=
  image_document (Raise HostError) cut_off_image.

Definition falsy_document : Document :=
  image_document (Ret HFalse) cut_off_image.

(** Five instructions whose mnemonics only start like those of a stub. *)
Definition lookalike_code : list Instruction :=
  [ instruction (py "adrp       x1, #0x100000") [py "x1"; py "#0x100000"];
    instruction (py "ldrsw      x1, [x8, #0x18]") [py "x1"; py "[x8, #0x18]"];
    instruction (py "adrp       x16, #0x104000") [py "x16"; py "#0x104000"];
    instruction (py "ldrb       w16, [x16, #0x8]") [py "w16"; py "[x16, #0x8]"];
    instruction (py "brk        #0x1") [py "#0x1"] ].

Definition lookalike_document : Document :=
  stub_document lookalike_code sample_memory.

(** A stub whose second instruction has no second operand. *)
Definition ldr_no_operand : Instruction :=
  instruction (py "ldr        x1") [py "x1"].

Definition no_operand_document : Document :=
  stub_document (stub_adrp :: ldr_no_operand :: stub_tail) sample_memory.

(** A stub whose pointer cell points at a zero byte: an empty selector. *)
Definition empty_selector_document : Document :=
  stub_document stub_code
    (place 0x100018 [3; 0; 0x20; 0; 0; 0; 0; 0]
     ∪ place 0x200000 [102; 111; 111; 0]).

(** An image all of whose names were chosen by the user. *)
Definition named_image : image :=
  {| image_code := place_code 0x1000 stub_code ∪ place_code 0x2000 stub_code;
     image_named := [0x1000; 0x2000];
     image_names := {[ 0x1000 := py "main"; 0x2000 := py "helper" ]};
     image_memory := sample_memory |}.

Definition named_document : Document :=
  image_document (Raise HostError) named_image.

Section Properties.

Variable unicode_decimal : Z -> option Z.
Variable setNameAtAddress : Document -> Z -> pystr -> Document * res unit.


(** *** The pattern matcher *)

Lemma is_objc_stub_fetched doc address i0 i1 i2 i3 i4 :
  fetch doc (address + 0 * 4) = Some i0 ->
  fetch doc (address + 1 * 4) = Some i1 ->
  fetch doc (address + 2 * 4) = Some i2 ->
  fetch doc (address + 3 * 4) = Some i3 ->
  fetch doc (address + 4 * 4) = Some i4 ->
  is_objc_stub doc address =
    startswith (getInstructionString i0) (py "adrp")
    && (startswith (getInstructionString i1) (py "ldr")
    && (startswith (getInstructionString i2) (py "adrp")
    && (startswith (getInstructionString i3) (py "ldr")
    && (startswith (getInstructionString i4) (py "br") && true)))).
Proof.
  unfold fetch, is_objc_stub, range5. intros E0 E1 E2 E3 E4.
  cbn [map]. rewrite E0, E1, E2, E3, E4. reflexivity.
Qed.

Lemma is_objc_stub_missing doc address (k : nat) :
  (k < 5)%nat ->
  fetch doc (address + Z.of_nat k * 4) = None ->
  is_objc_stub doc address = false.
Proof.
  intros Hk Hnone. unfold fetch in Hnone. unfold is_objc_stub, range5.
  assert (Hex : existsb is_none
            (map (fun i => getInstructionAtAddress (getCurrentSegment doc)
                              (address + i * 4)) [0; 1; 2; 3; 4]) = true).
  { apply existsb_exists. exists None. split; [| reflexivity].
    apply in_map_iff. exists (Z.of_nat k). split; [exact Hnone |].
    do 5 (destruct k as [| k]; [simpl; tauto |]). lia. }
  rewrite Hex. reflexivity.
Qed.

(** [startswith] holds exactly of the texts that are the prefix followed
    by something. *)
Lemma startswith_prefix (p s : pystr) :
  startswith s p = true <-> exists rest, s = p ++ rest.
Proof.
  revert s. induction p as [| c p IH]; intros s.
  - split; [intros _; exists s; reflexivity | intros _; destruct s; reflexivity].
  - destruct s as [| x s]; simpl.
    + split; [discriminate | intros [rest Hrest]; discriminate].
    + split.
      * intros H. apply andb_prop in H as [Hx Hrest].
        apply Z.eqb_eq in Hx as ->. apply IH in Hrest as [rest ->].
        exists rest. reflexivity.
      * intros [rest Hrest]. injection Hrest as -> ->.
        rewrite Z.eqb_refl. apply IH. exists rest. reflexivity.
Qed.

(** The matcher on a window of five fetched instructions. *)
Lemma is_objc_stub_window doc address i0 i1 i2 i3 i4 :
  fetch doc address = Some i0 ->
  fetch doc (address + 4) = Some i1 ->
  fetch doc (address + 8) = Some i2 ->
  fetch doc (address + 12) = Some i3 ->
  fetch doc (address + 16) = Some i4 ->
  is_objc_stub doc address =
    startswith (getInstructionString i0) [97; 100; 114; 112]
    && (startswith (getInstructionString i1) [108; 100; 114]
    && (startswith (getInstructionString i2) [97; 100; 114; 112]
    && (startswith (getInstructionString i3) [108; 100; 114]
    && (startswith (getInstructionString i4) [98; 114] && true)))).
Proof.
  intros E0 E1 E2 E3 E4.
  apply (is_objc_stub_fetched doc address i0 i1 i2 i3 i4);
    [replace (address + 0 * 4) with address by lia | | | |]; assumption.
Qed.

(** C1.  [is_objc_stub] answers [True] exactly when the five fetches at
    [address], [address + 4], [address + 8], [address + 12] and
    [address + 16] each yield an instruction and the texts of the five
    begin, in this order, with [adrp], [ldr], [adrp], [ldr], [br] (the
    mnemonics are written out below by their character codes).  When the
    fetch at any of the five places yields no instruction, or the text
    there does not begin with the mnemonic of its place, the answer is
    [False]. *)
Theorem is_objc_stub_spec (doc : Document) (address : Z) :
  (is_objc_stub doc address = true <->
   exists i0 i1 i2 i3 i4 r0 r1 r2 r3 r4,
     fetch doc address = Some i0
     /\ fetch doc (address + 4) = Some i1
     /\ fetch doc (address + 8) = Some i2
     /\ fetch doc (address + 12) = Some i3
     /\ fetch doc (address + 16) = Some i4
     /\ getInstructionString i0 = [97; 100; 114; 112] ++ r0
     /\ getInstructionString i1 = [108; 100; 114] ++ r1
     /\ getInstructionString i2 = [97; 100; 114; 112] ++ r2
     /\ getInstructionString i3 = [108; 100; 114] ++ r3
     /\ getInstructionString i4 = [98; 114] ++ r4)
  /\ (forall (k : Z) (mnemonic : pystr),
        In (k, mnemonic)
           [ (0, [97; 100; 114; 112]); (1, [108; 100; 114]);
             (2, [97; 100; 114; 112]); (3, [108; 100; 114]); (4, [98; 114]) ] ->
        fetch doc (address + 4 * k) = None
        \/ (exists inst,
              fetch doc (address + 4 * k) = Some inst
              /\ ~ exists rest, getInstructionString inst = mnemonic ++ rest) ->
        is_objc_stub doc address = false).
Proof.
  assert (Hiff : is_objc_stub doc address = true <->
    exists i0 i1 i2 i3 i4 r0 r1 r2 r3 r4,
      fetch doc address = Some i0
      /\ fetch doc (address + 4) = Some i1
      /\ fetch doc (address + 8) = Some i2
      /\ fetch doc (address + 12) = Some i3
      /\ fetch doc (address + 16) = Some i4
      /\ getInstructionString i0 = [97; 100; 114; 112] ++ r0
      /\ getInstructionString i1 = [108; 100; 114] ++ r1
      /\ getInstructionString i2 = [97; 100; 114; 112] ++ r2
      /\ getInstructionString i3 = [108; 100; 114] ++ r3
      /\ getInstructionString i4 = [98; 114] ++ r4).
  { split.
    - intros Hstub.
      assert (Hall : forall j, (j < 5)%nat ->
                exists i, fetch doc (address + Z.of_nat j * 4) = Some i).
      { intros j Hj. destruct (fetch doc (address + Z.of_nat j * 4)) eqn:E; [eauto |].
        rewrite (is_objc_stub_missing _ _ _ Hj E) in Hstub. discriminate. }
      destruct (Hall 0%nat) as [i0 E0]; [lia |].
      destruct (Hall 1%nat) as [i1 E1]; [lia |].
      destruct (Hall 2%nat) as [i2 E2]; [lia |].
      destruct (Hall 3%nat) as [i3 E3]; [lia |].
      destruct (Hall 4%nat) as [i4 E4]; [lia |].
      replace (address + Z.of_nat 0 * 4) with address in E0 by (simpl; lia).
      change (fetch doc (address + 4) = Some i1) in E1.
      change (fetch doc (address + 8) = Some i2) in E2.
      change (fetch doc (address + 12) = Some i3) in E3.
      change (fetch doc (address + 16) = Some i4) in E4.
      rewrite (is_objc_stub_window _ _ _ _ _ _ _ E0 E1 E2 E3 E4) in Hstub.
      apply andb_prop in Hstub as [S0 Hstub]. apply andb_prop in Hstub as [S1 Hstub].
      apply andb_prop in Hstub as [S2 Hstub]. apply andb_prop in Hstub as [S3 Hstub].
      apply andb_prop in Hstub as [S4 _].
      apply startswith_prefix in S0 as [r0 T0]. apply startswith_prefix in S1 as [r1 T1].
      apply startswith_prefix in S2 as [r2 T2]. apply startswith_prefix in S3 as [r3 T3].
      apply startswith_prefix in S4 as [r4 T4].
      exists i0, i1, i2, i3, i4, r0, r1, r2, r3, r4. tauto.
    - intros (i0 & i1 & i2 & i3 & i4 & r0 & r1 & r2 & r3 & r4
              & E0 & E1 & E2 & E3 & E4 & T0 & T1 & T2 & T3 & T4).
      rewrite (is_objc_stub_window _ _ _ _ _ _ _ E0 E1 E2 E3 E4).
      rewrite (proj2 (startswith_prefix _ _) (ex_intro _ r0 T0)).
      rewrite (proj2 (startswith_prefix _ _) (ex_intro _ r1 T1)).
      rewrite (proj2 (startswith_prefix _ _) (ex_intro _ r2 T2)).
      rewrite (proj2 (startswith_prefix _ _) (ex_intro _ r3 T3)).
      rewrite (proj2 (startswith_prefix _ _) (ex_intro _ r4 T4)).
      reflexivity. }
  split; [exact Hiff |].
  intros k mnemonic Hk Hbad.
  destruct (is_objc_stub doc address) eqn:Hstub; [| reflexivity].
  destruct (proj1 Hiff eq_refl)
    as (i0 & i1 & i2 & i3 & i4 & r0 & r1 & r2 & r3 & r4
        & E0 & E1 & E2 & E3 & E4 & T0 & T1 & T2 & T3 & T4).
  assert (Hplace : forall a' i (m r : pystr),
            fetch doc a' = Some i -> getInstructionString i = m ++ r ->
            fetch doc a' = None
            \/ (exists inst,
                  fetch doc a' = Some inst
                  /\ ~ exists rest, getInstructionString inst = m ++ rest) ->
            False).
  { intros a' i m r E T [Hnone | (inst & Hfetch & Hno)]; [congruence |].
    apply Hno. exists r. congruence. }
  simpl in Hk.
  destruct Hk as [[= <- <-] | [[= <- <-] | [[= <- <-] | [[= <- <-] | [[= <- <-] | []]]]]].
  - replace (address + 4 * 0) with address in Hbad by lia.
    destruct (Hplace _ _ _ _ E0 T0 Hbad).
  - change (4 * 1) with 4 in Hbad. destruct (Hplace _ _ _ _ E1 T1 Hbad).
  - change (4 * 2) with 8 in Hbad. destruct (Hplace _ _ _ _ E2 T2 Hbad).
  - change (4 * 3) with 12 in Hbad. destruct (Hplace _ _ _ _ E3 T3 Hbad).
  - change (4 * 4) with 16 in Hbad. destruct (Hplace _ _ _ _ E4 T4 Hbad).
Qed.

(** *** The string reader *)

Lemma read_loop_continues fuel doc result address :
  continues doc address = true ->
  exists b,
    readByte doc address = Ret (HInt b) /\ 0 < b < 256
    /\ read_loop (S fuel) doc result address
       = read_loop fuel doc (result ++ [b]) (address + 1).
Proof.
  unfold continues. intros Hc.
  destruct (readByte doc address) as [v |] eqn:Hread; [| discriminate].
  apply andb_prop in Hc as [Hnz Hrange].
  destruct v as [b |]; [| discriminate]. simpl in *.
  unfold between in Hrange. exists b. split; [reflexivity |].
  split; [lia |].
  rewrite Hread. simpl. unfold bytearray_append, between. simpl.
  destruct (b =? 0) eqn:Hz; [discriminate |].
  destruct ((0 <=? b) && (b <=? 255)) eqn:Hin; [reflexivity | discriminate].
Qed.

Lemma read_loop_halts fuel doc result address :
  continues doc address = false ->
  exists r, read_loop (S fuel) doc result address = Done r.
Proof.
  unfold continues. intros Hc. simpl.
  destruct (readByte doc address) as [v | e]; simpl; [| eauto].
  destruct (eq_zero v); simpl in *; [eauto |].
  unfold bytearray_append. rewrite Hc. simpl. eauto.
Qed.

(** Reading finishes within [fuel] iterations only if one of the first
    [fuel] addresses ends the loop. *)
Lemma read_loop_done fuel doc result address r :
  read_loop fuel doc result address = Done r ->
  exists n : nat, (n < fuel)%nat /\ continues doc (address + Z.of_nat n) = false.
Proof.
  revert result address. induction fuel as [| fuel IH]; intros result address Hdone.
  - discriminate.
  - destruct (continues doc address) eqn:Hc.
    + destruct (read_loop_continues fuel doc result address Hc) as (b & _ & _ & Heq).
      rewrite Heq in Hdone. destruct (IH _ _ Hdone) as (n & Hn & Hstop).
      exists (S n). split; [lia |].
      replace (address + Z.of_nat (S n)) with (address + 1 + Z.of_nat n) by lia.
      exact Hstop.
    + exists 0%nat. split; [lia |].
      replace (address + Z.of_nat 0) with address by lia. exact Hc.
Qed.

Lemma read_loop_finishes doc (n : nat) :
  forall result address,
    continues doc (address + Z.of_nat n) = false ->
    exists r, read_loop (S n) doc result address = Done r.
Proof.
  induction n as [| n IH]; intros result address Hstop.
  - replace (address + Z.of_nat 0) with address in Hstop by lia.
    apply read_loop_halts. exact Hstop.
  - destruct (continues doc address) eqn:Hc.
    + destruct (read_loop_continues (S n) doc result address Hc) as (b & _ & _ & Heq).
      rewrite Heq. apply IH.
      replace (address + 1 + Z.of_nat n) with (address + Z.of_nat (S n)) by lia.
      exact Hstop.
    + destruct (read_loop_halts n doc result address Hc) as [r Hr].
      destruct (read_loop_halts (S n) doc result address Hc) as [r' Hr'].
      eauto.
Qed.

(** The loop over a run of non-zero bytes followed by a zero byte. *)
Lemma read_loop_bytes doc (bs : list Z) :
  forall fuel result address,
    (forall (i : nat) b, bs !! i = Some b ->
       readByte doc (address + Z.of_nat i) = Ret (HInt b) /\ 0 < b < 256) ->
    readByte doc (address + Z.of_nat (length bs)) = Ret (HInt 0) ->
    (length bs < fuel)%nat ->
    read_loop fuel doc result address = Done (Ret (result ++ bs)).
Proof.
  induction bs as [| b bs IH]; intros fuel result address Hbytes Hzero Hfuel.
  - destruct fuel as [| fuel]; [simpl in Hfuel; lia |].
    assert (Hz : readByte doc address = Ret (HInt 0))
      by (rewrite <- Hzero; f_equal; simpl; lia).
    simpl. rewrite Hz. simpl. rewrite app_nil_r. reflexivity.
  - destruct fuel as [| fuel]; [simpl in Hfuel; lia |].
    destruct (Hbytes 0%nat b eq_refl) as [Hread Hb].
    replace (address + Z.of_nat 0) with address in Hread by (simpl; lia).
    assert (Hc : continues doc address = true).
    { unfold continues, between. rewrite Hread. simpl.
      apply andb_true_intro. split; [apply negb_true_iff, Z.eqb_neq; lia |].
      apply andb_true_intro. split; apply Z.leb_le; lia. }
    destruct (read_loop_continues fuel doc result address Hc)
      as (b' & Hread' & _ & Heq).
    rewrite Hread in Hread'. injection Hread' as <-.
    rewrite Heq.
    replace (result ++ b :: bs) with ((result ++ [b]) ++ bs)
      by (rewrite <- List.app_assoc; reflexivity).
    apply IH.
    + intros i c Hi. specialize (Hbytes (S i) c Hi).
      replace (address + 1 + Z.of_nat i) with (address + Z.of_nat (S i)) by lia.
      exact Hbytes.
    + replace (address + 1 + Z.of_nat (length bs))
        with (address + Z.of_nat (length (b :: bs))) by (simpl length; lia).
      exact Hzero.
    + simpl in Hfuel. lia.
Qed.

(** UTF-8 decoding of ASCII bytes yields the bytes themselves. *)
Lemma utf8_decode_ascii (bs : list Z) :
  Forall (fun b => 0 <= b < 128) bs -> utf8_decode bs = Some bs.
Proof.
  induction 1 as [| b bs Hb _ IH]; [reflexivity |].
  simpl. unfold between.
  destruct ((0 <=? b) && (b <=? 127)) eqn:Hlow.
  - rewrite IH. reflexivity.
  - apply andb_false_iff in Hlow as [Hlow | Hlow];
      [apply Z.leb_gt in Hlow | apply Z.leb_gt in Hlow]; lia.
Qed.

(** A decoded text holds the code point zero only if a byte was zero. *)
Lemma utf8_decode_positive (n : nat) :
  forall (bs : list Z) (s : pystr),
    (length bs <= n)%nat ->
    utf8_decode bs = Some s ->
    Forall (fun b => 0 < b) bs ->
    Forall (fun c => 0 < c) s.
Proof.
  induction n as [| n IH]; intros bs s Hlen Hdec Hpos.
  - destruct bs; [| simpl in Hlen; lia].
    injection Hdec as <-. constructor.
  - destruct bs as [| b0 r0]; [injection Hdec as <-; constructor |].
    apply Forall_cons in Hpos as [Hb0 Hpos].
    simpl in Hdec, Hlen. unfold between, continuation in Hdec.
    repeat
      match type of Hdec with
      | (if ?c then _ else _) = Some _ =>
          let E := fresh "E" in destruct c eqn:E; [| try discriminate Hdec]
      | match ?r with [] => _ | _ :: _ => _ end = Some _ =>
          let b := fresh "b" in
          let H := fresh "H" in
          destruct r as [| b r]; [discriminate Hdec |];
          apply Forall_cons in Hpos as [H Hpos]
      end;
      try (destruct (utf8_decode _) as [s' |] eqn:Hrest in Hdec;
           [| discriminate Hdec];
           simpl in Hdec; injection Hdec as <-;
           constructor;
           [ repeat match goal with
               | H : _ && _ = true |- _ => apply andb_prop in H as [? ?]
               end;
             repeat match goal with
               | H : context [?x =? ?y] |- _ => destruct (Z.eqb_spec x y)
               end;
             repeat match goal with
               | H : (_ <=? _) = true |- _ => apply Z.leb_le in H
               end; lia
           | eapply IH; [| exact Hrest | exact Hpos]; simpl in Hlen; lia ]).
Qed.

Lemma read_c_string_bytes (fuel : nat) (doc : Document) (address : Z) (bs : list Z) :
  (forall (i : nat) b, bs !! i = Some b ->
     readByte doc (address + Z.of_nat i) = Ret (HInt b) /\ 0 < b < 256) ->
  readByte doc (address + Z.of_nat (length bs)) = Ret (HInt 0) ->
  (length bs < fuel)%nat ->
  read_c_string fuel doc address = Done (decode bs).
Proof.
  intros Hbytes Hzero Hfuel. unfold read_c_string.
  rewrite (read_loop_bytes doc bs fuel [] address Hbytes Hzero Hfuel).
  reflexivity.
Qed.

(** C8.  When the bytes from [address] on are the non-zero bytes [bs]
    followed by a zero byte, [read_c_string] returns exactly [bs] decoded
    as text (the very bytes when they are ASCII), and the text it returns
    never holds the terminator. *)
Theorem read_c_string_stops_at_first_zero
    (fuel : nat) (doc : Document) (address : Z) (bs : list Z) :
  (forall (i : nat) b, bs !! i = Some b ->
     readByte doc (address + Z.of_nat i) = Ret (HInt b) /\ 0 < b < 256) ->
  readByte doc (address + Z.of_nat (length bs)) = Ret (HInt 0) ->
  (length bs < fuel)%nat ->
  read_c_string fuel doc address = Done (decode bs)
  /\ (Forall (fun b => b < 128) bs ->
      read_c_string fuel doc address = Done (Ret bs))
  /\ (forall s, read_c_string fuel doc address = Done (Ret s) -> 0 ∉ s).
Proof.
  intros Hbytes Hzero Hfuel.
  assert (Hpos : Forall (fun b => 0 < b) bs).
  { apply Forall_lookup. intros i b Hi. destruct (Hbytes i b Hi) as [_ ?]. lia. }
  pose proof (read_c_string_bytes fuel doc address bs Hbytes Hzero Hfuel) as Hread.
  split; [exact Hread |]. split.
  - intros Hascii. rewrite Hread. unfold decode.
    rewrite utf8_decode_ascii; [reflexivity |].
    apply Forall_lookup. intros i b Hi.
    destruct (Hbytes i b Hi) as [_ ?].
    pose proof (proj1 (Forall_lookup _ _) Hascii i b Hi) as Hlt. simpl in Hlt. lia.
  - intros s Hs Hin. rewrite Hread in Hs. unfold decode in Hs.
    destruct (utf8_decode bs) as [s' |] eqn:Hdec; [| discriminate].
    injection Hs as ->.
    pose proof (utf8_decode_positive _ _ _ (le_n _) Hdec Hpos) as Hall.
    pose proof (proj1 (Forall_forall _ _) Hall 0 Hin) as Hlt. simpl in Hlt. lia.
Qed.

(** C9 (as the code has it).  [read_c_string] has no bound on its loop
    and no length-exceeded outcome: it terminates exactly when some
    address at or after the start ends the loop, that is, when the read
    there returns zero or no byte at all. *)
Theorem read_c_string_terminates_iff (doc : Document) (address : Z) :
  terminates (fun fuel => read_c_string fuel doc address)
  <-> exists n : nat, continues doc (address + Z.of_nat n) = false.
Proof.
  unfold terminates, read_c_string. split.
  - intros (fuel & r & Hdone).
    destruct (read_loop fuel doc [] address) as [r' |] eqn:Hloop; [| discriminate].
    destruct (read_loop_done _ _ _ _ _ Hloop) as (n & _ & Hstop). eauto.
  - intros (n & Hstop).
    destruct (read_loop_finishes doc n [] address Hstop) as [r Hr].
    exists (S n). rewrite Hr. destruct r as [result | e]; simpl; eauto.
Qed.

(** *** Splitting operand text *)

Lemma split_nonempty (sep : Z) (s : pystr) : split sep s <> [].
Proof.
  destruct s as [| c s]; simpl; [discriminate |].
  destruct (c =? sep); [discriminate |].
  destruct (split sep s); discriminate.
Qed.

Lemma split_no_sep (sep : Z) (s : pystr) : sep ∉ s -> split sep s = [s].
Proof.
  induction s as [| c s IH]; intros Hnot; [reflexivity |].
  apply not_elem_of_cons in Hnot as [Hne Hnot]. simpl.
  destruct (Z.eqb_spec c sep) as [-> | _]; [contradiction |].
  rewrite (IH Hnot). reflexivity.
Qed.

Lemma split_app_sep (sep : Z) (l1 l2 : pystr) :
  sep ∉ l1 -> split sep (l1 ++ sep :: l2) = l1 :: split sep l2.
Proof.
  induction l1 as [| c l1 IH]; intros Hnot; simpl.
  - rewrite Z.eqb_refl. reflexivity.
  - apply not_elem_of_cons in Hnot as [Hne Hnot].
    destruct (Z.eqb_spec c sep) as [-> | _]; [contradiction |].
    rewrite (IH Hnot). reflexivity.
Qed.

Lemma split_app_head (sep : Z) (l1 l2 : pystr) :
  sep ∉ l1 ->
  exists h tl, split sep l2 = h :: tl /\ split sep (l1 ++ l2) = (l1 ++ h) :: tl.
Proof.
  intros Hnot. destruct (split sep l2) as [| h tl] eqn:Hsplit.
  - destruct (split_nonempty _ _ Hsplit).
  - exists h, tl. split; [reflexivity |].
    induction l1 as [| c l1 IH]; simpl; [exact Hsplit |].
    apply not_elem_of_cons in Hnot as [Hne Hnot].
    destruct (Z.eqb_spec c sep) as [-> | _]; [contradiction |].
    rewrite (IH Hnot). reflexivity.
Qed.

(** Every character of a part is a character of the text. *)
Lemma split_elem (sep : Z) (s part : pystr) (c : Z) :
  part ∈ split sep s -> c ∈ part -> c ∈ s.
Proof.
  revert part. induction s as [| x s IH]; intros part Hpart Hc; simpl in Hpart.
  - apply list_elem_of_singleton in Hpart as ->. exact Hc.
  - destruct (x =? sep).
    + apply elem_of_cons in Hpart as [-> | Hpart].
      * apply elem_of_nil in Hc. contradiction.
      * apply elem_of_cons. right. eapply IH; eassumption.
    + destruct (split sep s) as [| h tl] eqn:Hsplit.
      * apply list_elem_of_singleton in Hpart as ->.
        apply elem_of_cons in Hc as [-> | Hc]; [left |].
        apply elem_of_nil in Hc. contradiction.
      * apply elem_of_cons in Hpart as [-> | Hpart].
        -- apply elem_of_cons in Hc as [-> | Hc]; [left |].
           apply elem_of_cons. right. apply (IH h); [left | exact Hc].
        -- apply elem_of_cons. right. apply (IH part); [right; exact Hpart | exact Hc].
Qed.

(** *** Operand parsing *)

(** [int(text, 16)] returns or raises [ValueError], nothing else. *)
Lemma int16_outcome (s : pystr) :
  (exists n, int16 unicode_decimal s = Ret n)
  \/ int16 unicode_decimal s = Raise ValueError.
Proof.
  unfold int16. destruct (PyLong_FromString _); eauto.
Qed.

Lemma parse_offset_no_bracket (s : pystr) :
  91 ∉ s -> parse_offset unicode_decimal s = Ret None.
Proof.
  intros Hnot. unfold parse_offset.
  rewrite (split_no_sep _ _ Hnot). reflexivity.
Qed.

Lemma parse_offset_no_comma (s : pystr) :
  44 ∉ s -> parse_offset unicode_decimal s = Ret None.
Proof.
  intros Hnot. unfold parse_offset, index.
  destruct (split 91 s !! 1%nat) as [after |] eqn:Hafter; [| reflexivity].
  simpl.
  destruct (split 93 after) as [| inside rest] eqn:Hinside;
    [destruct (split_nonempty _ _ Hinside) |].
  simpl.
  assert (Hno : 44 ∉ inside).
  { intros Hin. apply Hnot.
    apply (split_elem 91 s after); [eapply list_elem_of_lookup_2; exact Hafter |].
    apply (split_elem 93 after inside); [rewrite Hinside; left | exact Hin]. }
  rewrite (split_no_sep _ _ Hno). reflexivity.
Qed.

(** On a well-shaped memory operand the offset is read from the text
    after the comma, stripped of blanks and of its first character. *)
Lemma parse_offset_memory_operand (s base off : pystr) :
  memory_operand s base off ->
  parse_offset unicode_decimal s =
    match int16 unicode_decimal (slice_from_1 (strip off)) with
    | Ret offset => Ret (Some offset)
    | Raise _ => Ret None
    end.
Proof.
  intros (pre & post & -> & Hpre & Hb1 & Hb2 & Hb3 & Ho1 & Ho2 & Ho3).
  unfold parse_offset.
  replace (pre ++ [91] ++ base ++ [44] ++ off ++ [93] ++ post)
    with (pre ++ 91 :: ((base ++ 44 :: off ++ [93]) ++ post))
    by (repeat (progress (cbn [app]; rewrite <- ?List.app_assoc)); reflexivity).
  rewrite (split_app_sep 91 pre _ Hpre).
  assert (Hnot : 91 ∉ base ++ 44 :: off ++ [93]).
  { rewrite elem_of_app, elem_of_cons, elem_of_app, list_elem_of_singleton.
    intros [? | [? | [? | ?]]]; try contradiction; discriminate. }
  destruct (split_app_head 91 _ post Hnot) as (h & tl & _ & ->).
  simpl index at 1. simpl.
  replace ((base ++ 44 :: off ++ [93]) ++ h)
    with ((base ++ 44 :: off) ++ 93 :: h)
    by (repeat (progress (cbn [app]; rewrite <- ?List.app_assoc)); reflexivity).
  assert (Hnot' : 93 ∉ base ++ 44 :: off).
  { rewrite elem_of_app, elem_of_cons.
    intros [? | [? | ?]]; try contradiction; discriminate. }
  rewrite (split_app_sep 93 _ h Hnot'). simpl.
  rewrite (split_app_sep 44 base off Hb3), (split_no_sep 44 off Ho3). simpl.
  destruct (int16_outcome (slice_from_1 (strip off))) as [[n ->] | ->]; reflexivity.
Qed.

(** [parse_offset] never raises. *)
Lemma parse_offset_returns (s : pystr) :
  exists r, parse_offset unicode_decimal s = Ret r.
Proof.
  unfold parse_offset, index.
  destruct (split 91 s !! 1%nat) as [after |]; simpl; [| eauto].
  destruct (split 93 after !! 0%nat) as [inside |]; simpl; [| eauto].
  destruct (split 44 inside !! 1%nat) as [field |]; simpl; [| eauto].
  destruct (int16_outcome (slice_from_1 (strip field))) as [[n ->] | ->]; eauto.
Qed.

(** With its second operand present, [get_page_address] never raises. *)
Lemma get_page_address_present (adrp_inst : Instruction) (text : pystr) :
  getFormattedArgument adrp_inst 1 = Some text ->
  get_page_address unicode_decimal adrp_inst =
    match int16 unicode_decimal (slice_from_1 text) with
    | Ret page => Ret (Some page)
    | Raise _ => Ret None
    end.
Proof.
  intros Harg. unfold get_page_address. rewrite Harg. simpl.
  destruct (int16_outcome (slice_from_1 text)) as [[n ->] | ->]; reflexivity.
Qed.

(** *** The resolver *)

Lemma get_selector_parsed fuel doc address adrp_inst ldr_inst page offset :
  fetch doc address = Some adrp_inst ->
  fetch doc (address + 4) = Some ldr_inst ->
  get_page_address unicode_decimal adrp_inst = Ret page ->
  parse_offset unicode_decimal (str (getFormattedArgument ldr_inst 1)) = Ret offset ->
  get_selector unicode_decimal fuel doc address =
    match page, offset with
    | Some page, Some offset => dereference fuel doc (page + offset)
    | _, _ => Done (Ret None)
    end.
Proof.
  unfold fetch, get_selector, dereference.
  intros -> -> -> ->. simpl.
  destruct page, offset; reflexivity.
Qed.

(** C2.  The pointer cell the resolver reads is the hexadecimal value of
    the page operand without its first character plus the hexadecimal
    value of the offset text inside the brackets without its first
    character: the resolver goes on exactly as the dereference of that
    cell.  For the operands [#0x100000] and [[x8, #0x18]] the cell is
    [0x100018]. *)
Theorem get_selector_cell_address
    (fuel : nat) (doc : Document) (address : Z)
    (adrp_inst ldr_inst : Instruction)
    (marker : Z) (page_text operand base off : pystr)
    (marker' : Z) (offset_text : pystr) (page offset : Z) :
  fetch doc address = Some adrp_inst ->
  fetch doc (address + 4) = Some ldr_inst ->
  getFormattedArgument adrp_inst 1 = Some (marker :: page_text) ->
  int16 unicode_decimal page_text = Ret page ->
  getFormattedArgument ldr_inst 1 = Some operand ->
  memory_operand operand base off ->
  strip off = marker' :: offset_text ->
  int16 unicode_decimal offset_text = Ret offset ->
  get_selector unicode_decimal fuel doc address = dereference fuel doc (page + offset).
Proof.
  intros Hadrp Hldr Harg Hpage Harg' Hshape Hstrip Hoffset.
  rewrite (get_selector_parsed fuel doc address adrp_inst ldr_inst
             (Some page) (Some offset) Hadrp Hldr); [reflexivity | |].
  - rewrite (get_page_address_present _ _ Harg).
    change (slice_from_1 (marker :: page_text)) with page_text.
    rewrite Hpage. reflexivity.
  - rewrite Harg'. simpl. rewrite (parse_offset_memory_operand _ _ _ Hshape).
    rewrite Hstrip. change (slice_from_1 (marker' :: offset_text)) with offset_text.
    rewrite Hoffset. reflexivity.
Qed.

(** C3.  When the cell the resolver computes holds the non-zero pointer
    [Q] and the bytes at [Q] are ["foo"] and a zero byte, the resolver
    returns the text ["foo"]. *)
Theorem get_selector_round_trip
    (fuel : nat) (doc : Document) (address : Z)
    (adrp_inst ldr_inst : Instruction) (page offset Q : Z) :
  fetch doc address = Some adrp_inst ->
  fetch doc (address + 4) = Some ldr_inst ->
  get_page_address unicode_decimal adrp_inst = Ret (Some page) ->
  parse_offset unicode_decimal (str (getFormattedArgument ldr_inst 1))
    = Ret (Some offset) ->
  readUInt64LE doc (page + offset) = Ret (HInt Q) ->
  Q <> 0 ->
  readByte doc Q = Ret (HInt 102) ->
  readByte doc (Q + 1) = Ret (HInt 111) ->
  readByte doc (Q + 2) = Ret (HInt 111) ->
  readByte doc (Q + 3) = Ret (HInt 0) ->
  (4 <= fuel)%nat ->
  get_selector unicode_decimal fuel doc address = Done (Ret (Some (py "foo"))).
Proof.
  intros Hadrp Hldr Hpage Hoffset Hcell HQ Hf Ho1 Ho2 Hz Hfuel.
  rewrite (get_selector_parsed fuel doc address adrp_inst ldr_inst
             _ _ Hadrp Hldr Hpage Hoffset).
  unfold dereference. rewrite Hcell. cbn [mbind comp_bind truthy int_of].
  destruct (Z.eqb_spec Q 0) as [? | _]; [contradiction |]. cbn [negb].
  assert (Hread : read_c_string fuel doc Q = Done (decode [102; 111; 111])).
  { apply read_c_string_bytes.
    - intros i b Hi.
      destruct i as [| [| [| i]]]; simpl in Hi;
        try rewrite lookup_nil in Hi; try discriminate;
        injection Hi as <-;
        (split; [| lia]).
      + replace (Q + Z.of_nat 0) with Q by (simpl; lia). exact Hf.
      + exact Ho1.
      + exact Ho2.
    - exact Hz.
    - simpl. lia. }
  rewrite Hread. reflexivity.
Qed.

(** A text up to the first occurrence of a separator, and the rest. *)
Lemma span_sep (sep : Z) (l : pystr) :
  exists l0 l1,
    l = l0 ++ l1 /\ (sep ∉ l0) /\ (l1 = [] \/ exists t, l1 = sep :: t).
Proof.
  induction l as [| c l (l0 & l1 & -> & Hnot & Hl1)].
  - exists [], []. split; [reflexivity |].
    split; [apply not_elem_of_nil | left; reflexivity].
  - destruct (Z.eq_dec c sep) as [-> | Hne].
    + exists [], (sep :: l0 ++ l1). split; [reflexivity |].
      split; [apply not_elem_of_nil | right; eauto].
    + exists (c :: l0), l1. split; [reflexivity |]. split; [| exact Hl1].
      apply not_elem_of_cons. split; [congruence | exact Hnot].
Qed.

Lemma split_first (sep : Z) (x tail : pystr) :
  sep ∉ x -> tail = [] \/ (exists t, tail = sep :: t) ->
  exists tl, split sep (x ++ tail) = x :: tl.
Proof.
  intros Hx [-> | [t ->]].
  - rewrite app_nil_r, (split_no_sep _ _ Hx). eauto.
  - rewrite (split_app_sep _ _ _ Hx). eauto.
Qed.

Lemma split_second (sep : Z) (h x tail : pystr) :
  sep ∉ h -> sep ∉ x -> tail = [] \/ (exists t, tail = sep :: t) ->
  exists tl, split sep (h ++ sep :: x ++ tail) = h :: x :: tl.
Proof.
  intros Hh Hx Htail. rewrite (split_app_sep _ _ _ Hh).
  destruct (split_first sep x tail Hx Htail) as [tl ->]. eauto.
Qed.

Lemma split_first_inv (sep : Z) (s : pystr) :
  forall x tl,
    split sep s = x :: tl ->
    (sep ∉ x)
    /\ ((s = x /\ tl = []) \/ exists t, s = x ++ sep :: t /\ tl = split sep t).
Proof.
  induction s as [| c s IH]; intros x tl Hsplit; simpl in Hsplit.
  - injection Hsplit as <- <-. split; [apply not_elem_of_nil | left; auto].
  - destruct (Z.eqb_spec c sep) as [-> | Hne].
    + injection Hsplit as <- <-. split; [apply not_elem_of_nil | right; eauto].
    + destruct (split sep s) as [| h tl'] eqn:Hs;
        [destruct (split_nonempty _ _ Hs) |].
      injection Hsplit as <- <-.
      destruct (IH h tl' eq_refl) as [Hh Hcases]. split.
      * apply not_elem_of_cons. split; [congruence | exact Hh].
      * destruct Hcases as [[-> ->] | (t & -> & ->)]; [left; auto | right; eauto].
Qed.

(** The text [parse_offset] hands to [int] is the offset text. *)
Lemma parse_offset_offset_text (s off : pystr) :
  offset_text s off ->
  parse_offset unicode_decimal s =
    match int16 unicode_decimal (slice_from_1 (strip off)) with
    | Ret offset => Ret (Some offset)
    | Raise _ => Ret None
    end.
Proof.
  intros (pre & base & tail & -> & Hpre & Hb1 & Hb2 & Hb3 & Ho1 & Ho2 & Ho3 & Htail).
  destruct (span_sep 91 tail) as (tail0 & tail1 & -> & Hn0 & Htail1).
  destruct (span_sep 93 tail0) as (t0 & t1 & -> & Hn1 & Ht1).
  assert (Ht0 : t0 = [] \/ exists t, t0 = 44 :: t).
  { destruct t0 as [| c t0]; [left; reflexivity | right].
    destruct Htail as [Hnil | (c' & t & Heq & Hc)]; [discriminate Hnil |].
    injection Heq as <- _.
    apply not_elem_of_cons in Hn1 as [Hc93 _].
    apply not_elem_of_app in Hn0 as [Hn0 _].
    apply not_elem_of_cons in Hn0 as [Hc91 _].
    destruct Hc as [-> | [-> | ->]]; [contradiction | contradiction | eauto]. }
  assert (Hn91 : 91 ∉ t0) by (apply not_elem_of_app in Hn0 as [? _]; assumption).
  assert (Hn44 : forall x, x = 91 \/ x = 93 -> x ∉ t0 -> x ∉ base -> x ∉ off ->
                 x ∉ base ++ 44 :: off ++ t0).
  { intros x Hx ? ? ?. rewrite elem_of_app, elem_of_cons, elem_of_app.
    intros [? | [-> | [? | ?]]]; try contradiction. destruct Hx; discriminate. }
  unfold parse_offset.
  replace (pre ++ [91] ++ base ++ [44] ++ off ++ (t0 ++ t1) ++ tail1)
    with (pre ++ 91 :: ((base ++ 44 :: off ++ t0) ++ t1) ++ tail1)
    by (repeat (progress (cbn [app]; rewrite <- ?List.app_assoc)); reflexivity).
  rewrite (split_app_sep 91 pre _ Hpre).
  assert (Hafter : 91 ∉ (base ++ 44 :: off ++ t0) ++ t1).
  { apply not_elem_of_app. split; [apply Hn44; auto |].
    apply not_elem_of_app in Hn0 as [_ ?]. assumption. }
  destruct (split_first 91 _ tail1 Hafter Htail1) as [tl ->].
  cbn [index lookup list_lookup mbind res_bind].
  destruct (split_first 93 (base ++ 44 :: off ++ t0) t1
              (Hn44 93 (or_intror eq_refl) Hn1 Hb2 Ho2) Ht1)
    as [tl' ->].
  cbn [index lookup list_lookup mbind res_bind].
  destruct (split_second 44 base off t0 Hb3 Ho3 Ht0) as [tl'' ->].
  cbn [index lookup list_lookup mbind res_bind].
  destruct (int16_outcome (slice_from_1 (strip off))) as [[n ->] | ->]; reflexivity.
Qed.

(** Every offset [parse_offset] returns was read from the offset text. *)
Lemma parse_offset_some_inv (s : pystr) (n : Z) :
  parse_offset unicode_decimal s = Ret (Some n) ->
  exists off,
    offset_text s off
    /\ int16 unicode_decimal (slice_from_1 (strip off)) = Ret n.
Proof.
  unfold parse_offset, index. intros Hparse.
  destruct (split 91 s) as [| pre tl] eqn:H91; [destruct (split_nonempty _ _ H91) |].
  destruct tl as [| after tl]; [discriminate |].
  cbn [lookup list_lookup mbind res_bind] in Hparse.
  destruct (split 93 after) as [| inside tl93] eqn:H93;
    [destruct (split_nonempty _ _ H93) |].
  cbn [lookup list_lookup mbind res_bind] in Hparse.
  destruct (split 44 inside) as [| base tl44] eqn:H44;
    [destruct (split_nonempty _ _ H44) |].
  destruct tl44 as [| off tl44]; [discriminate |].
  cbn [lookup list_lookup mbind res_bind] in Hparse.
  destruct (int16 unicode_decimal (slice_from_1 (strip off))) as [m | e] eqn:Hint;
    [| destruct e; discriminate].
  injection Hparse as ->.
  exists off. split; [| exact Hint].
  destruct (split_first_inv _ _ _ _ H91) as [Hpre [[_ [=]] | (t1 & -> & Htl)]].
  symmetry in Htl.
  destruct (split_first_inv _ _ _ _ Htl) as [Hafter Hcase1].
  destruct (split_first_inv _ _ _ _ H93) as [Hinside Hcase2].
  destruct (split_first_inv _ _ _ _ H44) as [Hbase [[_ [=]] | (t3 & Hins & Htl44)]].
  symmetry in Htl44.
  destruct (split_first_inv _ _ _ _ Htl44) as [Hoff Hcase3].
  assert (Hins' : exists tail3,
            inside = base ++ 44 :: off ++ tail3
            /\ (tail3 = [] \/ exists t, tail3 = 44 :: t)).
  { destruct Hcase3 as [[-> _] | (t & -> & _)].
    - exists []. rewrite app_nil_r. split; [exact Hins | left; reflexivity].
    - exists (44 :: t). split; [exact Hins | right; eauto]. }
  destruct Hins' as (tail3 & -> & Htail3).
  assert (Haft : exists tail2,
            after = (base ++ 44 :: off ++ tail3) ++ tail2
            /\ (tail2 = [] \/ exists t, tail2 = 93 :: t)).
  { destruct Hcase2 as [[-> _] | (t & -> & _)].
    - exists []. rewrite app_nil_r. split; [reflexivity | left; reflexivity].
    - exists (93 :: t). split; [reflexivity | right; eauto]. }
  destruct Haft as (tail2 & -> & Htail2).
  assert (Hs : exists tail1,
            t1 = ((base ++ 44 :: off ++ tail3) ++ tail2) ++ tail1
            /\ (tail1 = [] \/ exists t, tail1 = 91 :: t)).
  { destruct Hcase1 as [[-> _] | (t & -> & _)].
    - exists []. rewrite app_nil_r. split; [reflexivity | left; reflexivity].
    - exists (91 :: t). split; [reflexivity | right; eauto]. }
  destruct Hs as (tail1 & -> & Htail1).
  apply not_elem_of_app in Hafter as [Hafter _].
  apply not_elem_of_app in Hafter as [Hb91 Hafter].
  apply not_elem_of_cons in Hafter as [_ Hafter].
  apply not_elem_of_app in Hafter as [Ho91 _].
  apply not_elem_of_app in Hinside as [Hb93 Hinside].
  apply not_elem_of_cons in Hinside as [_ Hinside].
  apply not_elem_of_app in Hinside as [Ho93 _].
  exists pre, base, (tail3 ++ tail2 ++ tail1).
  split; [repeat (progress (cbn [app]; rewrite <- ?List.app_assoc)); reflexivity |].
  repeat (split; [assumption |]).
  destruct Htail3 as [-> | [t ->]]; [| right; eexists _, _; split; [reflexivity | auto]].
  destruct Htail2 as [-> | [t ->]]; [| right; eexists _, _; split; [reflexivity | auto]].
  destruct Htail1 as [-> | [t ->]]; [left; reflexivity |].
  right; eexists _, _; split; [reflexivity | auto].
Qed.

(** A well-shaped memory operand has its offset text. *)
Lemma memory_operand_offset_text (s base off : pystr) :
  memory_operand s base off -> offset_text s off.
Proof.
  intros (pre & post & -> & H).
  exists pre, base, (93 :: post). split; [reflexivity |].
  repeat (destruct H as [? H]; split; [assumption |]).
  split; [exact H |]. right. eexists _, _. split; [reflexivity | auto].
Qed.


(** C7 (as the code has it).  With page and offset parsed, a read of the
    pointer cell that returns zero, or the [False] with which a host
    reports a failed read, makes the resolver return [None].  A read that
    fails by raising is not caught: the resolver ends with that exception
    instead of returning [None].  No selector comes out in any of these
    cases. *)
Theorem get_selector_null_pointer
    (fuel : nat) (doc : Document) (address : Z)
    (adrp_inst ldr_inst : Instruction) (page offset : Z) :
  fetch doc address = Some adrp_inst ->
  fetch doc (address + 4) = Some ldr_inst ->
  get_page_address unicode_decimal adrp_inst = Ret (Some page) ->
  parse_offset unicode_decimal (str (getFormattedArgument ldr_inst 1))
    = Ret (Some offset) ->
  (readUInt64LE doc (page + offset) = Ret (HInt 0)
   \/ readUInt64LE doc (page + offset) = Ret HFalse ->
   get_selector unicode_decimal fuel doc address = Done (Ret None))
  /\ (forall e, readUInt64LE doc (page + offset) = Raise e ->
      get_selector unicode_decimal fuel doc address = Done (Raise e)).
Proof.
  intros Hadrp Hldr Hpage Hoffset.
  rewrite (get_selector_parsed fuel doc address adrp_inst ldr_inst
             _ _ Hadrp Hldr Hpage Hoffset).
  unfold dereference. split.
  - intros [-> | ->]; reflexivity.
  - intros e ->. reflexivity.
Qed.

(** *** The driver *)

(** One turn of the [for] loop. *)
Lemma scan_cons fuel doc renamed_functions a rest :
  scan unicode_decimal setNameAtAddress fuel doc renamed_functions (a :: rest) =
    let name := getNameAtAddress doc a in
    if negb (startswith name (py "sub_")) then
      let '(log, doc', r) :=
          scan unicode_decimal setNameAtAddress fuel doc renamed_functions rest in
      (Skipped a :: log, doc', r)
    else
      match analyse unicode_decimal fuel doc a with
      | OutOfFuel => ([], doc, OutOfFuel)
      | Done (Raise exc) =>
          let '(log, doc', r) :=
              scan unicode_decimal setNameAtAddress fuel doc renamed_functions rest in
          (AnalyzeFailed a name exc :: log, doc', r)
      | Done (Ret NotStub) =>
          let '(log, doc', r) :=
              scan unicode_decimal setNameAtAddress fuel doc renamed_functions rest in
          (NotAStub a :: log, doc', r)
      | Done (Ret NoSelector) =>
          let '(log, doc', r) :=
              scan unicode_decimal setNameAtAddress fuel doc renamed_functions rest in
          (ExtractFailed a name :: log, doc', r)
      | Done (Ret (Resolved selector)) =>
          match setNameAtAddress doc a (selector ++ py "()") with
          | (doc', Ret _) =>
              let '(log, doc'', r) :=
                  scan unicode_decimal setNameAtAddress fuel doc' (renamed_functions + 1) rest in
              (Renaming a name (selector ++ py "()") :: log, doc'', r)
          | (doc', Raise e) =>
              ([Renaming a name (selector ++ py "()")], doc', Done (Raise e))
          end
      end.
Proof. reflexivity. Qed.

(** An exception raised inside the [try] block is logged and the loop
    goes on with the next address, from the same document and counter. *)
Lemma scan_analysis_raises fuel doc renamed_functions a rest e :
  startswith (getNameAtAddress doc a) (py "sub_") = true ->
  analyse unicode_decimal fuel doc a = Done (Raise e) ->
  scan unicode_decimal setNameAtAddress fuel doc renamed_functions (a :: rest) =
    let '(log, doc', r) :=
        scan unicode_decimal setNameAtAddress fuel doc renamed_functions rest in
    (AnalyzeFailed a (getNameAtAddress doc a) e :: log, doc', r).
Proof.
  intros Hname Hraise. rewrite scan_cons. cbv zeta.
  rewrite Hname, Hraise. reflexivity.
Qed.

Lemma scan_ends_continue fuel n a rest ev log doc' r :
  event_address ev = Some a ->
  is_renaming ev = false ->
  scan_ends unicode_decimal setNameAtAddress fuel n rest (log, doc', r) ->
  scan_ends unicode_decimal setNameAtAddress fuel n (a :: rest) (ev :: log, doc', r).
Proof.
  unfold scan_ends. intros Haddr Hren Hrest.
  destruct r as [[n' | e] |].
  - destruct Hrest as [-> <-]. cbn [List.filter omap list_omap].
    rewrite Hren, Haddr. split; reflexivity.
  - destruct Hrest as (log0 & d & b & name & new_name & -> & Hset).
    exists (ev :: log0), d, b, name, new_name. split; [reflexivity | exact Hset].
  - exact Hrest.
Qed.

Lemma scan_outcome (addresses : list Z) :
  forall fuel doc renamed_functions,
    scan_ends unicode_decimal setNameAtAddress fuel renamed_functions addresses
      (scan unicode_decimal setNameAtAddress fuel doc renamed_functions addresses).
Proof.
  induction addresses as [| a rest IH]; intros fuel doc n.
  - cbn. split; [lia | reflexivity].
  - rewrite scan_cons. cbv zeta.
    destruct (negb (startswith (getNameAtAddress doc a) (py "sub_"))).
    { pose proof (IH fuel doc n) as Hrest.
      destruct (scan unicode_decimal setNameAtAddress fuel doc n rest)
        as [[log doc'] r].
      apply scan_ends_continue; [reflexivity | reflexivity | exact Hrest]. }
    destruct (analyse unicode_decimal fuel doc a) as [[[| | selector] | exc] |] eqn:Han.
    + pose proof (IH fuel doc n) as Hrest.
      destruct (scan unicode_decimal setNameAtAddress fuel doc n rest)
        as [[log doc'] r].
      apply scan_ends_continue; [reflexivity | reflexivity | exact Hrest].
    + pose proof (IH fuel doc n) as Hrest.
      destruct (scan unicode_decimal setNameAtAddress fuel doc n rest)
        as [[log doc'] r].
      apply scan_ends_continue; [reflexivity | reflexivity | exact Hrest].
    + destruct (setNameAtAddress doc a (selector ++ py "()"))
      as [doc1 [[] | e]] eqn:Hset.
      * pose proof (IH fuel doc1 (n + 1)) as Hrest.
        destruct (scan unicode_decimal setNameAtAddress fuel doc1 (n + 1) rest)
          as [[log doc'] r].
        unfold scan_ends in *. destruct r as [[n' | e] |].
        -- destruct Hrest as [-> <-].
           cbn [List.filter is_renaming omap list_omap event_address length].
           split; [lia | reflexivity].
        -- destruct Hrest as (log0 & d & b & name & new_name & -> & Hset').
           eexists (_ :: log0), d, b, name, new_name.
           split; [reflexivity | exact Hset'].
        -- exact Hrest.
      * unfold scan_ends.
        exists [], doc, a, (getNameAtAddress doc a), (selector ++ py "()").
        split; [reflexivity | exact Hset].
    + pose proof (IH fuel doc n) as Hrest.
      destruct (scan unicode_decimal setNameAtAddress fuel doc n rest)
        as [[log doc'] r].
      apply scan_ends_continue; [reflexivity | reflexivity | exact Hrest].
    + unfold scan_ends. exists doc, a. exact Han.
Qed.


Lemma scan_frame (a : Z) (addresses : list Z) :
  rename_is_local setNameAtAddress ->
  forall fuel doc renamed_functions,
    startswith (getNameAtAddress doc a) (py "sub_") = false ->
    let '(log, doc', _) :=
        scan unicode_decimal setNameAtAddress fuel doc renamed_functions addresses in
    (forall ev, ev ∈ log -> event_address ev = Some a -> ev = Skipped a)
    /\ getNameAtAddress doc' a = getNameAtAddress doc a.
Proof.
  intros Hlocal.
  assert (Hstep : forall ev log (doc0 doc' : Document),
            (event_address ev = Some a -> ev = Skipped a) ->
            (forall ev', ev' ∈ log -> event_address ev' = Some a -> ev' = Skipped a)
            /\ getNameAtAddress doc' a = getNameAtAddress doc0 a ->
            (forall ev', ev' ∈ ev :: log ->
                        event_address ev' = Some a -> ev' = Skipped a)
            /\ getNameAtAddress doc' a = getNameAtAddress doc0 a).
  { intros ev log doc0 doc' Hev [Hlog Hname]. split; [| exact Hname].
    intros ev' Hin Haddr. apply elem_of_cons in Hin as [-> | Hin]; auto. }
  induction addresses as [| b rest IH]; intros fuel doc n Hname.
  - cbn. split; [| reflexivity]. intros ev Hin. apply elem_of_nil in Hin. contradiction.
  - rewrite scan_cons. cbv zeta.
    destruct (startswith (getNameAtAddress doc b) (py "sub_")) eqn:Hb; cbn [negb].
    + assert (Hne : a <> b) by (intros ->; congruence).
      assert (Hother : forall ev, event_address ev = Some b ->
                event_address ev = Some a -> ev = Skipped a) by (intros; congruence).
      destruct (analyse unicode_decimal fuel doc b) as [[[| | selector] | exc] |].
      * pose proof (IH fuel doc n Hname) as Hrest.
        destruct (scan unicode_decimal setNameAtAddress fuel doc n rest)
          as [[log doc'] r].
        apply Hstep; [apply Hother; reflexivity | exact Hrest].
      * pose proof (IH fuel doc n Hname) as Hrest.
        destruct (scan unicode_decimal setNameAtAddress fuel doc n rest)
          as [[log doc'] r].
        apply Hstep; [apply Hother; reflexivity | exact Hrest].
      * pose proof (Hlocal doc b (selector ++ py "()") a Hne) as Hkeep.
        destruct (setNameAtAddress doc b (selector ++ py "()")) as [doc1 [[] | e]];
          cbn [fst] in Hkeep.
        -- assert (Hname1 : startswith (getNameAtAddress doc1 a) (py "sub_") = false)
             by (rewrite Hkeep; exact Hname).
           pose proof (IH fuel doc1 (n + 1) Hname1) as Hrest.
           destruct (scan unicode_decimal setNameAtAddress fuel doc1 (n + 1) rest)
             as [[log doc'] r].
           rewrite <- Hkeep.
           apply Hstep; [apply Hother; reflexivity | exact Hrest].
        -- rewrite <- Hkeep.
           apply Hstep; [apply Hother; reflexivity |].
           split; [| reflexivity].
           intros ev Hin. apply elem_of_nil in Hin. contradiction.
      * pose proof (IH fuel doc n Hname) as Hrest.
        destruct (scan unicode_decimal setNameAtAddress fuel doc n rest)
          as [[log doc'] r].
        apply Hstep; [apply Hother; reflexivity | exact Hrest].
      * split; [| reflexivity].
        intros ev Hin. apply elem_of_nil in Hin. contradiction.
    + pose proof (IH fuel doc n Hname) as Hrest.
      destruct (scan unicode_decimal setNameAtAddress fuel doc n rest)
        as [[log doc'] r].
      apply Hstep; [| exact Hrest].
      cbn. intros [= ->]. reflexivity.
Qed.


(** With the page operand present but no hexadecimal numeral after its
    first character, the page is [None] and so is the resolver's answer. *)
Lemma get_selector_page_not_hex fuel doc address adrp_inst ldr_inst text :
  fetch doc address = Some adrp_inst ->
  fetch doc (address + 4) = Some ldr_inst ->
  getFormattedArgument adrp_inst 1 = Some text ->
  int16 unicode_decimal (slice_from_1 text) = Raise ValueError ->
  get_page_address unicode_decimal adrp_inst = Ret None
  /\ get_selector unicode_decimal fuel doc address = Done (Ret None).
Proof.
  intros Hadrp Hldr Harg Hint.
  assert (Hpage : get_page_address unicode_decimal adrp_inst = Ret None)
    by (rewrite (get_page_address_present _ _ Harg), Hint; reflexivity).
  split; [exact Hpage |].
  destruct (parse_offset_returns (str (getFormattedArgument ldr_inst 1))) as [o Ho].
  rewrite (get_selector_parsed fuel doc address adrp_inst ldr_inst
             None o Hadrp Hldr Hpage Ho).
  reflexivity.
Qed.

(** C5 (where the code departs from it).  When the first instruction has
    no second operand, [get_page_address] does not return [None]: slicing
    the missing operand raises [TypeError], which the [except ValueError]
    clause lets through, and the resolver passes it on to its caller. *)
Theorem get_page_address_missing_operand
    (adrp_inst : Instruction) :
  getFormattedArgument adrp_inst 1 = None ->
  get_page_address unicode_decimal adrp_inst = Raise TypeError
  /\ forall (fuel : nat) (doc : Document) (address : Z) (ldr_inst : Instruction),
       fetch doc address = Some adrp_inst ->
       fetch doc (address + 4) = Some ldr_inst ->
       get_selector unicode_decimal fuel doc address = Done (Raise TypeError).
Proof.
  intros Harg.
  assert (Hpage : get_page_address unicode_decimal adrp_inst = Raise TypeError)
    by (unfold get_page_address; rewrite Harg; reflexivity).
  split; [exact Hpage |].
  intros fuel doc address ldr_inst Hadrp Hldr.
  unfold fetch in Hadrp, Hldr. unfold get_selector.
  rewrite Hadrp, Hldr, Hpage. reflexivity.
Qed.

End Properties.

(** ** Concrete runs *)

(** A character does not occur in a literal text. *)
Ltac absent :=
  let H := fresh "H" in
  intro H; vm_compute in H;
  repeat (apply elem_of_cons in H as [H | H]; [discriminate H |]);
  apply elem_of_nil in H; exact H.

Lemma sample_memory_operand :
  memory_operand (py "[x8, #0x18]") (py "x8") (py " #0x18").
Proof.
  exists [], []. split; [reflexivity |].
  repeat split; absent.
Qed.

Lemma set_name_is_local : rename_is_local set_name.
Proof.
  intros d b name c Hne. cbn.
  destruct (Z.eqb_spec c b); [contradiction | reflexivity].
Qed.

(** The operands [#0x100000] and [[x8, #0x18]] lead to the cell
    [0x100018]. *)
Lemma get_selector_cell_address_witness :
  is_objc_stub sample_document 0x1000 = true
  /\ getFormattedArgument stub_adrp 1 = Some (py "#0x100000")
  /\ getFormattedArgument stub_ldr 1 = Some (py "[x8, #0x18]")
  /\ get_selector ucd_decimal 4 sample_document 0x1000
     = dereference 4 sample_document 0x100018.
Proof.
  split; [vm_compute; reflexivity |].
  split; [reflexivity |]. split; [reflexivity |].
  apply (get_selector_cell_address ucd_decimal 4 sample_document 0x1000
           stub_adrp stub_ldr
           35 (py "0x100000") (py "[x8, #0x18]") (py "x8") (py " #0x18")
           35 (py "0x18") 0x100000 0x18).
  - vm_compute. reflexivity.
  - vm_compute. reflexivity.
  - reflexivity.
  - vm_compute. reflexivity.
  - reflexivity.
  - exact sample_memory_operand.
  - vm_compute. reflexivity.
  - vm_compute. reflexivity.
Defined.

(** The cell [0x100018] holds [0x200000] in little-endian bytes, and
    ["foo\0"] lies there. *)
Lemma get_selector_round_trip_witness :
  bytes_at sample_memory 0x100018 8 = Some [0; 0; 0x20; 0; 0; 0; 0; 0]
  /\ bytes_at sample_memory 0x200000 4 = Some [102; 111; 111; 0]
  /\ get_selector ucd_decimal 4 sample_document 0x1000 = Done (Ret (Some (py "foo"))).
Proof.
  split; [vm_compute; reflexivity |]. split; [vm_compute; reflexivity |].
  apply (get_selector_round_trip ucd_decimal 4 sample_document 0x1000
           stub_adrp stub_ldr 0x100000 0x18 0x200000);
    try (vm_compute; reflexivity); try discriminate; try lia.
Defined.

(** A stub whose pointer cell holds zero, one whose cell the host answers
    with [False], and one whose cell the host refuses with an exception. *)
Lemma get_selector_null_pointer_witness :
  readUInt64LE null_document (0x100000 + 0x18) = Ret (HInt 0)
  /\ get_selector ucd_decimal 4 null_document 0x1000 = Done (Ret None)
  /\ readUInt64LE falsy_document (0x100000 + 0x18) = Ret HFalse
  /\ get_selector ucd_decimal 4 falsy_document 0x1000 = Done (Ret None)
  /\ readUInt64LE faulting_document (0x100000 + 0x18) = Raise HostError
  /\ get_selector ucd_decimal 4 faulting_document 0x1000 = Done (Raise HostError).
Proof.
  split; [vm_compute; reflexivity |]. split.
  { apply (get_selector_null_pointer ucd_decimal 4 null_document 0x1000
             stub_adrp stub_ldr 0x100000 0x18);
      try (vm_compute; reflexivity).
    left. vm_compute. reflexivity. }
  split; [vm_compute; reflexivity |]. split.
  { apply (get_selector_null_pointer ucd_decimal 4 falsy_document 0x1000
             stub_adrp stub_ldr 0x100000 0x18);
      try (vm_compute; reflexivity).
    right. vm_compute. reflexivity. }
  split; [vm_compute; reflexivity |].
  apply (get_selector_null_pointer ucd_decimal 4 faulting_document 0x1000
           stub_adrp stub_ldr 0x100000 0x18);
    vm_compute; reflexivity.
Defined.

(** C7, the claim as stated fails: when the read of the pointer cell fails
    by raising, the resolver does not return [None], it raises. *)
Lemma get_selector_read_raises :
  fetch faulting_document 0x1000 = Some stub_adrp
  /\ fetch faulting_document (0x1000 + 4) = Some stub_ldr
  /\ get_page_address ucd_decimal stub_adrp = Ret (Some 0x100000)
  /\ parse_offset ucd_decimal (str (getFormattedArgument stub_ldr 1))
     = Ret (Some 0x18)
  /\ readUInt64LE faulting_document (0x100000 + 0x18) = Raise HostError
  /\ get_selector ucd_decimal 4 faulting_document 0x1000 = Done (Raise HostError)
  /\ get_selector ucd_decimal 4 faulting_document 0x1000 <> Done (Ret None).
Proof.
  repeat (split; [vm_compute; reflexivity |]).
  vm_compute. discriminate.
Qed.

(** Reading ["bar\0baz\0"] from its first byte yields ["bar"]. *)
Lemma read_c_string_stops_at_first_zero_witness :
  bytes_at sample_memory 0x300000 8 = Some [98; 97; 114; 0; 98; 97; 122; 0]
  /\ read_c_string 4 sample_document 0x300000 = Done (Ret (py "bar")).
Proof.
  split; [vm_compute; reflexivity |].
  destruct (read_c_string_stops_at_first_zero 4 sample_document 0x300000 [98; 97; 114])
    as (_ & Hascii & _).
  - intros i b Hi.
    destruct i as [| [| [| i]]]; simpl in Hi;
      try rewrite lookup_nil in Hi; try discriminate;
      injection Hi as <-; (split; [vm_compute; reflexivity | lia]).
  - vm_compute. reflexivity.
  - simpl. lia.
  - apply Hascii. repeat constructor.
Defined.

(** C9, the claim as stated fails: over a memory without a zero byte the
    loop of [read_c_string] has no end, whatever the fuel. *)
Lemma read_c_string_unbounded :
  ~ terminates (fun fuel => read_c_string fuel endless_document 0).
Proof.
  intros (fuel & r & Hdone). unfold read_c_string in Hdone.
  destruct (read_loop fuel endless_document [] 0) as [r' |] eqn:Hloop;
    [| discriminate].
  apply read_loop_done in Hloop as (n & _ & Hstop).
  discriminate.
Qed.

(** A first instruction without second operand makes the resolver raise. *)
Lemma get_page_address_missing_operand_witness :
  getFormattedArgument adrp_no_page 1 = None
  /\ get_page_address ucd_decimal adrp_no_page = Raise TypeError
  /\ get_selector ucd_decimal 4 sample_document 0x2000 = Done (Raise TypeError).
Proof.
  split; [reflexivity |].
  destruct (get_page_address_missing_operand ucd_decimal adrp_no_page eq_refl)
    as [Hpage Hselector].
  split; [exact Hpage |].
  apply (Hselector 4%nat sample_document 0x2000 stub_ldr); vm_compute; reflexivity.
Defined.




(** A run over four names: the analysis of [0x2000] raises, the stubs
    before and after it are renamed, and the count is two. *)
Lemma sample_run :
  let '(log, _, r) := rename_objc_stubs ucd_decimal set_name 4 sample_document in
  log = [ Renaming 0x1000 (py "sub_1000") (py "foo()");
          AnalyzeFailed 0x2000 (py "sub_2000") TypeError;
          Renaming 0x3000 (py "sub_3000") (py "foo()");
          Skipped 0x4000;
          Summary 2 ]
  /\ r = Done (Ret tt).
Proof.
  vm_compute. split; reflexivity.
Qed.



(** ** Further properties *)

Section FurtherProperties.

Variable unicode_decimal : Z -> option Z.
Variable setNameAtAddress : Document -> Z -> pystr -> Document * res unit.

(** *** The string reader, beyond the terminated string *)

Lemma bytes_from_cons doc address b bs :
  bytes_from doc address (b :: bs) ->
  readByte doc address = Ret (HInt b) /\ 0 < b < 256
  /\ bytes_from doc (address + 1) bs.
Proof.
  intros Hbytes. destruct (Hbytes 0%nat b eq_refl) as [Hread Hb].
  replace (address + Z.of_nat 0) with address in Hread by (simpl; lia).
  split; [exact Hread |]. split; [exact Hb |].
  intros i c Hi. specialize (Hbytes (S i) c Hi).
  replace (address + 1 + Z.of_nat i) with (address + Z.of_nat (S i)) by lia.
  exact Hbytes.
Qed.

(** The loop walks over a run of non-zero bytes, one turn per byte. *)
Lemma read_loop_advance doc (bs : list Z) :
  forall fuel result address,
    bytes_from doc address bs ->
    read_loop (length bs + fuel) doc result address
    = read_loop fuel doc (result ++ bs) (address + Z.of_nat (length bs)).
Proof.
  induction bs as [| b bs IH]; intros fuel result address Hbytes.
  - simpl length. rewrite app_nil_r. f_equal. simpl. lia.
  - destruct (bytes_from_cons _ _ _ _ Hbytes) as (Hread & Hb & Hrest).
    assert (Hc : continues doc address = true).
    { unfold continues, between. rewrite Hread. simpl.
      apply andb_true_intro. split; [apply negb_true_iff, Z.eqb_neq; lia |].
      apply andb_true_intro. split; apply Z.leb_le; lia. }
    destruct (read_loop_continues (length bs + fuel) doc result address Hc)
      as (b' & Hread' & _ & Heq).
    rewrite Hread in Hread'. injection Hread' as <-.
    change (length (b :: bs) + fuel)%nat with (S (length bs + fuel)).
    rewrite Heq, (IH fuel (result ++ [b]) (address + 1) Hrest).
    rewrite <- List.app_assoc. f_equal. simpl length. lia.
Qed.

Lemma read_loop_after doc (bs : list Z) fuel address :
  bytes_from doc address bs ->
  (length bs < fuel)%nat ->
  exists k,
    read_loop fuel doc [] address
    = read_loop (S k) doc bs (address + Z.of_nat (length bs)).
Proof.
  intros Hbytes Hfuel. exists (fuel - S (length bs))%nat.
  replace fuel with (length bs + S (fuel - S (length bs)))%nat at 1 by lia.
  rewrite (read_loop_advance doc bs _ [] address Hbytes). reflexivity.
Qed.

(** X1.  A read that raises after the non-zero bytes [bs] ends
    [read_c_string] with the same exception: the bytes read so far are
    dropped. *)
Theorem read_c_string_read_raises
    (fuel : nat) (doc : Document) (address : Z) (bs : list Z) (e : exn) :
  bytes_from doc address bs ->
  readByte doc (address + Z.of_nat (length bs)) = Raise e ->
  (length bs < fuel)%nat ->
  read_c_string fuel doc address = Done (Raise e).
Proof.
  intros Hbytes Hraise Hfuel. unfold read_c_string.
  destruct (read_loop_after doc bs fuel address Hbytes Hfuel) as [k ->].
  simpl. rewrite Hraise. reflexivity.
Qed.

(** X2.  A read that hands back [False] after the non-zero bytes [bs]
    ends the string like a zero byte, since [False == 0]: the text read so
    far is returned and nothing tells the caller it was cut short. *)
Theorem read_c_string_false_ends
    (fuel : nat) (doc : Document) (address : Z) (bs : list Z) :
  bytes_from doc address bs ->
  readByte doc (address + Z.of_nat (length bs)) = Ret HFalse ->
  (length bs < fuel)%nat ->
  read_c_string fuel doc address = Done (decode bs).
Proof.
  intros Hbytes Hfalse Hfuel. unfold read_c_string.
  destruct (read_loop_after doc bs fuel address Hbytes Hfuel) as [k ->].
  simpl. rewrite Hfalse. reflexivity.
Qed.

Lemma read_loop_stop f f' doc doc' result address :
  readByte doc address = readByte doc' address ->
  continues doc address = false ->
  read_loop (S f) doc result address = read_loop (S f') doc' result address.
Proof.
  unfold continues. intros Hsame Hstop. simpl. rewrite <- Hsame.
  destruct (readByte doc address) as [v | e]; simpl; [| reflexivity].
  destruct (eq_zero v); simpl in *; [reflexivity |].
  unfold bytearray_append. rewrite Hstop. reflexivity.
Qed.

Lemma read_loop_local (n : nat) :
  forall doc doc' fuel fuel' result address,
    (forall i : nat, (i <= n)%nat ->
       readByte doc (address + Z.of_nat i) = readByte doc' (address + Z.of_nat i)) ->
    continues doc (address + Z.of_nat n) = false ->
    (n < fuel)%nat -> (n < fuel')%nat ->
    read_loop fuel doc result address = read_loop fuel' doc' result address.
Proof.
  induction n as [| n IH]; intros doc doc' fuel fuel' result address Hsame Hstop Hf Hf';
    destruct fuel as [| f]; [lia | | lia |]; destruct fuel' as [| f']; try lia.
  - specialize (Hsame 0%nat (le_n _)).
    replace (address + Z.of_nat 0) with address in * by (simpl; lia).
    apply read_loop_stop; assumption.
  - assert (Hhere : readByte doc address = readByte doc' address).
    { specialize (Hsame 0%nat ltac:(lia)).
      replace (address + Z.of_nat 0) with address in Hsame by (simpl; lia).
      exact Hsame. }
    destruct (continues doc address) eqn:Hc.
    + assert (Hc' : continues doc' address = true)
        by (unfold continues in *; rewrite <- Hhere; exact Hc).
      destruct (read_loop_continues f doc result address Hc) as (b & Hb & _ & ->).
      destruct (read_loop_continues f' doc' result address Hc') as (b' & Hb' & _ & ->).
      rewrite Hhere, Hb' in Hb. injection Hb as ->.
      apply IH; try lia.
      * intros i Hi. specialize (Hsame (S i) ltac:(lia)).
        replace (address + 1 + Z.of_nat i) with (address + Z.of_nat (S i)) by lia.
        exact Hsame.
      * replace (address + 1 + Z.of_nat n) with (address + Z.of_nat (S n)) by lia.
        exact Hstop.
    + apply read_loop_stop; assumption.
Qed.

(** X3.  [read_c_string] reads no byte beyond the one that ends its loop:
    two memories that agree from the start address up to that byte give
    the same outcome, and so does any amount of fuel that reaches it. *)
Theorem read_c_string_local
    (doc doc' : Document) (address : Z) (n fuel fuel' : nat) :
  (forall i : nat, (i <= n)%nat ->
     readByte doc (address + Z.of_nat i) = readByte doc' (address + Z.of_nat i)) ->
  continues doc (address + Z.of_nat n) = false ->
  (n < fuel)%nat -> (n < fuel')%nat ->
  read_c_string fuel doc address = read_c_string fuel' doc' address.
Proof.
  intros Hsame Hstop Hf Hf'. unfold read_c_string.
  rewrite (read_loop_local n doc doc' fuel fuel' [] address Hsame Hstop Hf Hf').
  reflexivity.
Qed.

(** *** The pattern matcher looks at prefixes only *)

Lemma startswith_app (p s : pystr) : startswith (p ++ s) p = true.
Proof.
  induction p as [| c p IH]; [destruct s; reflexivity |].
  simpl. rewrite Z.eqb_refl, IH. reflexivity.
Qed.

(** X4.  The matcher looks at nothing but the first letters of the five
    instruction texts: whatever follows the mnemonic, be it operands or
    more letters of a longer mnemonic such as [ldrsw] or [brk], the
    window is taken for a stub. *)
Theorem is_objc_stub_accepts_suffixes (doc : Document) (address : Z) :
  (forall (k : nat) (expected : pystr),
     expected_instructions !! k = Some expected ->
     exists inst suffix,
       fetch doc (address + Z.of_nat k * 4) = Some inst
       /\ getInstructionString inst = expected ++ suffix) ->
  is_objc_stub doc address = true.
Proof.
  intros Hall.
  destruct (Hall 0%nat _ eq_refl) as (i0 & s0 & E0 & T0).
  destruct (Hall 1%nat _ eq_refl) as (i1 & s1 & E1 & T1).
  destruct (Hall 2%nat _ eq_refl) as (i2 & s2 & E2 & T2).
  destruct (Hall 3%nat _ eq_refl) as (i3 & s3 & E3 & T3).
  destruct (Hall 4%nat _ eq_refl) as (i4 & s4 & E4 & T4).
  rewrite (is_objc_stub_fetched _ _ _ _ _ _ _ E0 E1 E2 E3 E4).
  rewrite T0, T1, T2, T3, T4, !startswith_app. reflexivity.
Qed.

(** *** Hexadecimal operands *)

Lemma hex_digit_range (c : Z) :
  hex_digit c -> 48 <= c <= 57 \/ 65 <= c <= 70 \/ 97 <= c <= 102.
Proof.
  unfold hex_digit, digit_value. intros [d Hd].
  destruct ((48 <=? c) && (c <=? 57)) eqn:E1;
    [apply andb_prop in E1 as [?%Z.leb_le ?%Z.leb_le]; lia |].
  destruct ((97 <=? c) && (c <=? 102)) eqn:E2;
    [apply andb_prop in E2 as [?%Z.leb_le ?%Z.leb_le]; lia |].
  destruct ((65 <=? c) && (c <=? 70)) eqn:E3;
    [apply andb_prop in E3 as [?%Z.leb_le ?%Z.leb_le]; lia |].
  discriminate.
Qed.

Lemma hex_digit_enum (c : Z) :
  hex_digit c ->
  In c [48; 49; 50; 51; 52; 53; 54; 55; 56; 57; 65; 66; 67; 68; 69; 70;
        97; 98; 99; 100; 101; 102].
Proof.
  intros Hc. apply hex_digit_range in Hc. simpl.
  assert (c = 48 \/ c = 49 \/ c = 50 \/ c = 51 \/ c = 52 \/ c = 53 \/ c = 54
          \/ c = 55 \/ c = 56 \/ c = 57 \/ c = 65 \/ c = 66 \/ c = 67
          \/ c = 68 \/ c = 69 \/ c = 70 \/ c = 97 \/ c = 98 \/ c = 99
          \/ c = 100 \/ c = 101 \/ c = 102) as H by lia.
  repeat (destruct H as [-> | H]; [tauto |]). subst c. tauto.
Qed.

(** Cases on which of the digits a character is. *)
Ltac digit_cases H :=
  apply hex_digit_enum in H; simpl in H;
  repeat (destruct H as [<- | H]; [try reflexivity |]); try contradiction.

Lemma scan_digits_hex (ds : pystr) :
  forall prev acc,
    prev <> underscore ->
    Forall hex_digit ds ->
    scan_digits prev acc ds
    = Some (fold_left (fun a c => 16 * a + default 0 (digit_value c)) ds acc, []).
Proof.
  induction ds as [| c ds IH]; intros prev acc Hprev Hds; simpl.
  - destruct (Z.eqb_spec prev underscore); [contradiction | reflexivity].
  - apply Forall_cons in Hds as [Hc Hds].
    assert (Hne : c <> underscore)
      by (apply hex_digit_range in Hc; unfold underscore; lia).
    destruct (Z.eqb_spec c underscore); [contradiction |].
    destruct Hc as [d Hd]. rewrite Hd. simpl. apply IH; assumption.
Qed.

Lemma long_from_string_base_hex (ds : pystr) :
  ds <> [] -> Forall hex_digit ds ->
  long_from_string_base ds = Some (hex_value ds, []).
Proof.
  intros Hne Hds. destruct ds as [| c ds]; [contradiction |].
  unfold long_from_string_base, hex_value.
  pose proof (Forall_inv Hds) as [d Hd]. rewrite Hd.
  apply scan_digits_hex; [unfold underscore; lia | exact Hds].
Qed.

Lemma PyLong_FromString_steps (s : pystr) :
  PyLong_FromString s =
    let '(sign, s2) := split_sign (skip_blanks s) in
    match long_from_string_base (strip_prefix s2) with
    | Some (v, rest) =>
        match skip_blanks rest with
        | [] => Some (sign * v)
        | _ :: _ => None
        end
    | None => None
    end.
Proof. reflexivity. Qed.

Lemma split_sign_digit (c : Z) (t : pystr) :
  hex_digit c -> split_sign (c :: t) = (1, c :: t).
Proof. intros Hc. digit_cases Hc. Qed.

Lemma strip_prefix_digits (ds : pystr) :
  Forall hex_digit ds -> strip_prefix ds = ds.
Proof.
  intros Hds. destruct ds as [| c ds]; [reflexivity |].
  apply Forall_cons in Hds as [Hc Hds].
  destruct ds as [| x t]; [digit_cases Hc |].
  apply Forall_cons in Hds as [Hx _]. apply hex_digit_range in Hx.
  assert (Hno : (x =? 120) || (x =? 88) = false).
  { apply orb_false_intro; apply Z.eqb_neq; lia. }
  apply hex_digit_enum in Hc; simpl in Hc.
  repeat (destruct Hc as [<- | Hc]; [try reflexivity |]); try contradiction.
  unfold strip_prefix. rewrite Hno. reflexivity.
Qed.

Lemma strip_prefix_0x (x : Z) (ds : pystr) :
  x = 120 \/ x = 88 -> ds <> [] -> Forall hex_digit ds ->
  strip_prefix (48 :: x :: ds) = ds.
Proof.
  intros Hx Hne Hds. destruct ds as [| c t]; [contradiction |].
  pose proof (Forall_inv Hds) as Hc.
  destruct Hx as [-> | ->]; digit_cases Hc.
Qed.

Lemma skip_blanks_nonblank (c : Z) (t : pystr) :
  ascii_isspace c = false -> skip_blanks (c :: t) = c :: t.
Proof. intros H. simpl. rewrite H. reflexivity. Qed.

Lemma ascii_isspace_above (c : Z) : 33 <= c -> ascii_isspace c = false.
Proof.
  intros Hc. unfold ascii_isspace.
  apply orb_false_intro; [apply andb_false_intro2 | ];
    [apply Z.leb_gt | apply Z.eqb_neq]; lia.
Qed.

(** The unsigned part of a numeral, after the sign was taken off. *)
Lemma unsigned_hex_scan (text : pystr) (n : Z) :
  unsigned_hex text n ->
  (exists c t, text = c :: t /\ hex_digit c)
  /\ long_from_string_base (strip_prefix text) = Some (n, []).
Proof.
  intros (prefix & ds & Hprefix & Hne & Hds & -> & ->).
  assert (H0 : hex_digit 48) by (exists 0; reflexivity).
  destruct Hprefix as [-> | [-> | ->]].
  - split.
    + destruct ds as [| c t]; [contradiction |].
      exists c, t. split; [reflexivity | exact (Forall_inv Hds)].
    + simpl app. rewrite (strip_prefix_digits _ Hds).
      apply long_from_string_base_hex; assumption.
  - split; [exists 48, (120 :: ds); split; [reflexivity | exact H0] |].
    change (py "0x" ++ ds) with (48 :: 120 :: ds).
    rewrite (strip_prefix_0x 120 ds (or_introl eq_refl) Hne Hds).
    apply long_from_string_base_hex; assumption.
  - split; [exists 48, (88 :: ds); split; [reflexivity | exact H0] |].
    change (py "0X" ++ ds) with (48 :: 88 :: ds).
    rewrite (strip_prefix_0x 88 ds (or_intror eq_refl) Hne Hds).
    apply long_from_string_base_hex; assumption.
Qed.

Lemma PyLong_FromString_hex (text : pystr) (n : Z) :
  signed_hex text n -> PyLong_FromString text = Some n.
Proof.
  intros [Hu | [(t & -> & Hu) | (t & m & -> & Hu & ->)]];
    rewrite PyLong_FromString_steps.
  - destruct (unsigned_hex_scan _ _ Hu) as [(c & t & -> & Hc) Hscan].
    rewrite skip_blanks_nonblank
      by (apply ascii_isspace_above; apply hex_digit_range in Hc; lia).
    rewrite (split_sign_digit c t Hc). cbv beta iota zeta.
    rewrite Hscan. simpl. f_equal; lia.
  - destruct (unsigned_hex_scan _ _ Hu) as [_ Hscan].
    rewrite skip_blanks_nonblank by reflexivity.
    change (split_sign (43 :: t)) with (1, t). cbv beta iota zeta.
    rewrite Hscan. simpl. f_equal; lia.
  - destruct (unsigned_hex_scan _ _ Hu) as [_ Hscan].
    rewrite skip_blanks_nonblank by reflexivity.
    change (split_sign (45 :: t)) with (-1, t). cbv beta iota zeta.
    rewrite Hscan. simpl. f_equal; lia.
Qed.

Lemma unsigned_hex_ascii (text : pystr) (n : Z) :
  unsigned_hex text n -> Forall (fun c => c < 128) text.
Proof.
  intros (prefix & ds & Hprefix & _ & Hds & -> & _).
  apply Forall_app. split.
  - destruct Hprefix as [-> | [-> | ->]]; repeat constructor.
  - eapply Forall_impl; [exact Hds |].
    intros c Hc. apply hex_digit_range in Hc. simpl. lia.
Qed.

Lemma map_to_ascii (s : pystr) :
  Forall (fun c => c < 128) s -> map (to_ascii unicode_decimal) s = s.
Proof.
  induction 1 as [| c s Hc _ IH]; [reflexivity |].
  simpl. rewrite IH. unfold to_ascii.
  destruct (Z.ltb_spec c 128); [reflexivity | lia].
Qed.

(** [int(text, 16)] on a hexadecimal numeral is the number it denotes. *)
Lemma int16_hex (text : pystr) (n : Z) :
  signed_hex text n -> int16 unicode_decimal text = Ret n.
Proof.
  intros Hs. unfold int16. rewrite map_to_ascii.
  - rewrite (PyLong_FromString_hex _ _ Hs). reflexivity.
  - destruct Hs as [Hu | [(t & -> & Hu) | (t & m & -> & Hu & _)]].
    + exact (unsigned_hex_ascii _ _ Hu).
    + constructor; [lia | exact (unsigned_hex_ascii _ _ Hu)].
    + constructor; [lia | exact (unsigned_hex_ascii _ _ Hu)].
Qed.

(** *** The two operand parsers *)

(** X5.  [parse_offset] never raises, whatever the text: its [except]
    clause covers every exception its body can raise.  And it returns an
    offset only for a text that has an opening bracket and a comma. *)
Theorem parse_offset_never_raises (s : pystr) :
  exists r,
    parse_offset unicode_decimal s = Ret r
    /\ (forall n, r = Some n -> 91 ∈ s /\ 44 ∈ s).
Proof.
  destruct (parse_offset_returns unicode_decimal s) as [r Hr].
  exists r. split; [exact Hr |].
  intros n ->. split.
  - destruct (decide (91 ∈ s)) as [H | H]; [exact H |].
    rewrite (parse_offset_no_bracket unicode_decimal s H) in Hr. discriminate.
  - destruct (decide (44 ∈ s)) as [H | H]; [exact H |].
    rewrite (parse_offset_no_comma unicode_decimal s H) in Hr. discriminate.
Qed.

(** X7.  The page operand is read as a hexadecimal numeral after its first
    character, whatever that character is: digits with or without [0x],
    with or without a sign, give the number they denote. *)
Theorem get_page_address_hex
    (adrp_inst : Instruction) (marker : Z) (text : pystr) (n : Z) :
  getFormattedArgument adrp_inst 1 = Some (marker :: text) ->
  signed_hex text n ->
  get_page_address unicode_decimal adrp_inst = Ret (Some n).
Proof.
  intros Harg Hhex. rewrite (get_page_address_present unicode_decimal _ _ Harg).
  change (slice_from_1 (marker :: text)) with text.
  rewrite (int16_hex _ _ Hhex). reflexivity.
Qed.

(** X8.  The offset of a well-shaped memory operand is the hexadecimal
    numeral after the comma, without the blanks around it and without its
    first character.  A minus sign is honoured: the offset is then
    negative. *)
Theorem parse_offset_hex
    (s base off : pystr) (marker : Z) (text : pystr) (n : Z) :
  memory_operand s base off ->
  strip off = marker :: text ->
  signed_hex text n ->
  parse_offset unicode_decimal s = Ret (Some n).
Proof.
  intros Hshape Hstrip Hhex.
  rewrite (parse_offset_memory_operand unicode_decimal _ _ _ Hshape), Hstrip.
  change (slice_from_1 (marker :: text)) with text.
  rewrite (int16_hex _ _ Hhex). reflexivity.
Qed.

(** *** The resolver *)

(** X9.  A second instruction without second operand does not make the
    resolver raise: [str(None)] is the text [None], which has no bracket,
    so the offset is [None] and, the page operand being there, the
    resolver returns [None]. *)
Theorem get_selector_missing_ldr_operand
    (fuel : nat) (doc : Document) (address : Z)
    (adrp_inst ldr_inst : Instruction) (text : pystr) :
  fetch doc address = Some adrp_inst ->
  fetch doc (address + 4) = Some ldr_inst ->
  getFormattedArgument adrp_inst 1 = Some text ->
  getFormattedArgument ldr_inst 1 = None ->
  parse_offset unicode_decimal (str (getFormattedArgument ldr_inst 1)) = Ret None
  /\ get_selector unicode_decimal fuel doc address = Done (Ret None).
Proof.
  intros Hadrp Hldr Harg Hnone.
  assert (Hoff : parse_offset unicode_decimal (str (getFormattedArgument ldr_inst 1))
                 = Ret None).
  { rewrite Hnone. apply parse_offset_no_bracket.
    intros H. vm_compute in H.
    repeat (apply elem_of_cons in H as [H | H]; [discriminate H |]).
    apply elem_of_nil in H. exact H. }
  split; [exact Hoff |].
  pose proof (get_page_address_present unicode_decimal _ _ Harg) as Hpage.
  destruct (int16 unicode_decimal (slice_from_1 text)) as [page | e];
    rewrite (get_selector_parsed unicode_decimal fuel doc address adrp_inst ldr_inst
               _ None Hadrp Hldr Hpage Hoff);
    reflexivity.
Qed.

(** What the loop returns is what it was given plus a run of non-zero
    bytes found in memory, ended by a value equal to zero. *)
Lemma read_loop_ret_inv (fuel : nat) :
  forall doc result address out,
    read_loop fuel doc result address = Done (Ret out) ->
    exists bs v,
      out = result ++ bs
      /\ bytes_from doc address bs
      /\ readByte doc (address + Z.of_nat (length bs)) = Ret v
      /\ eq_zero v = true.
Proof.
  induction fuel as [| fuel IH]; intros doc result address out Hout; [discriminate |].
  simpl in Hout.
  destruct (readByte doc address) as [v | e] eqn:Hread; simpl in Hout; [| discriminate].
  destruct (eq_zero v) eqn:Hz.
  - injection Hout as <-. exists [], v.
    rewrite app_nil_r. split; [reflexivity |]. split.
    + intros i b Hi. rewrite lookup_nil in Hi. discriminate.
    + split; [| exact Hz].
      rewrite <- Hread. f_equal. simpl. lia.
  - unfold bytearray_append in Hout.
    destruct (between 0 255 (int_of v)) eqn:Hrange; simpl in Hout; [| discriminate].
    destruct v as [b |]; [| discriminate]. simpl in *.
    destruct (IH _ _ _ _ Hout) as (bs & v' & -> & Hbytes & Hend & Hz').
    exists (b :: bs), v'. split; [rewrite <- List.app_assoc; reflexivity |].
    split; [| split; [| exact Hz']].
    + intros i c Hi. destruct i as [| i].
      * injection Hi as <-. split.
        -- rewrite <- Hread. f_equal. simpl. lia.
        -- unfold between in Hrange.
           apply andb_prop in Hrange as [?%Z.leb_le ?%Z.leb_le].
           apply Z.eqb_neq in Hz. lia.
      * specialize (Hbytes i c Hi).
        replace (address + Z.of_nat (S i)) with (address + 1 + Z.of_nat i) by lia.
        exact Hbytes.
    + rewrite <- Hend. f_equal. simpl length. lia.
Qed.

(** X10.  Whatever text the resolver returns was really found: both
    instructions were fetched, page and offset parsed, the cell at their
    sum held a non-zero pointer, and the text is the decoding of the whole
    run of non-zero bytes that lies at that pointer, up to the first read
    that returns a value equal to zero. *)
Theorem get_selector_sound
    (fuel : nat) (doc : Document) (address : Z) (selector : pystr) :
  get_selector unicode_decimal fuel doc address = Done (Ret (Some selector)) ->
  exists adrp_inst ldr_inst page offset pointer bs,
    fetch doc address = Some adrp_inst
    /\ fetch doc (address + 4) = Some ldr_inst
    /\ get_page_address unicode_decimal adrp_inst = Ret (Some page)
    /\ parse_offset unicode_decimal (str (getFormattedArgument ldr_inst 1))
       = Ret (Some offset)
    /\ readUInt64LE doc (page + offset) = Ret (HInt pointer)
    /\ pointer <> 0
    /\ bytes_from doc pointer bs
    /\ (exists v,
          readByte doc (pointer + Z.of_nat (length bs)) = Ret v
          /\ eq_zero v = true)
    /\ decode bs = Ret selector.
Proof.
  unfold get_selector, fetch. intros Hsel.
  destruct (getInstructionAtAddress (getCurrentSegment doc) address)
    as [adrp_inst |]; [| discriminate].
  destruct (getInstructionAtAddress (getCurrentSegment doc) (address + 4))
    as [ldr_inst |]; [| discriminate].
  destruct (get_page_address unicode_decimal adrp_inst) as [[page |] | e] eqn:Hpage;
    simpl in Hsel; try discriminate;
    destruct (parse_offset unicode_decimal (str (getFormattedArgument ldr_inst 1)))
      as [[offset |] | e'] eqn:Hoff; simpl in Hsel; try discriminate.
  destruct (readUInt64LE doc (page + offset)) as [[pointer |] | e] eqn:Hcell;
    simpl in Hsel; try discriminate.
  destruct (Z.eqb_spec pointer 0) as [| Hne]; simpl in Hsel; [discriminate |].
  unfold read_c_string in Hsel.
  destruct (read_loop fuel doc [] pointer) as [[out | e] |] eqn:Hloop;
    simpl in Hsel; try discriminate.
  destruct (decode out) as [text | e] eqn:Hdec; simpl in Hsel; [| discriminate].
  injection Hsel as <-.
  destruct (read_loop_ret_inv _ _ _ _ _ Hloop) as (bs & v & -> & Hbytes & Hend & Hz).
  exists adrp_inst, ldr_inst, page, offset, pointer, bs.
  split; [reflexivity |]. split; [reflexivity |].
  split; [exact Hpage |]. split; [exact Hoff |].
  split; [exact Hcell |]. split; [exact Hne |].
  split; [exact Hbytes |]. split; [exists v; split; assumption | exact Hdec].
Qed.

(** The dereference of a cell that points at the non-zero bytes [bs]
    followed by a zero byte. *)
Lemma dereference_bytes fuel doc cell pointer (bs : list Z) :
  readUInt64LE doc cell = Ret (HInt pointer) ->
  pointer <> 0 ->
  bytes_from doc pointer bs ->
  readByte doc (pointer + Z.of_nat (length bs)) = Ret (HInt 0) ->
  (length bs < fuel)%nat ->
  dereference fuel doc cell =
    match utf8_decode bs with
    | Some selector => Done (Ret (Some selector))
    | None => Done (Raise UnicodeDecodeError)
    end.
Proof.
  intros Hcell Hne Hbytes Hzero Hfuel.
  unfold dereference. rewrite Hcell. cbn [mbind comp_bind truthy int_of].
  destruct (Z.eqb_spec pointer 0) as [? | _]; [contradiction |]. cbn [negb].
  rewrite (read_c_string_bytes fuel doc pointer bs Hbytes Hzero Hfuel).
  unfold decode. destruct (utf8_decode bs); reflexivity.
Qed.

(** X11.  The round trip for any selector: when the cell the resolver
    computes holds a non-zero pointer and the non-zero bytes [bs] followed
    by a zero byte lie there, the resolver returns [bs] decoded, or raises
    [UnicodeDecodeError] when [bs] is not UTF-8. *)
Theorem get_selector_reads_selector
    (fuel : nat) (doc : Document) (address : Z)
    (adrp_inst ldr_inst : Instruction) (page offset pointer : Z) (bs : list Z) :
  fetch doc address = Some adrp_inst ->
  fetch doc (address + 4) = Some ldr_inst ->
  get_page_address unicode_decimal adrp_inst = Ret (Some page) ->
  parse_offset unicode_decimal (str (getFormattedArgument ldr_inst 1))
    = Ret (Some offset) ->
  readUInt64LE doc (page + offset) = Ret (HInt pointer) ->
  pointer <> 0 ->
  bytes_from doc pointer bs ->
  readByte doc (pointer + Z.of_nat (length bs)) = Ret (HInt 0) ->
  (length bs < fuel)%nat ->
  get_selector unicode_decimal fuel doc address =
    match utf8_decode bs with
    | Some selector => Done (Ret (Some selector))
    | None => Done (Raise UnicodeDecodeError)
    end.
Proof.
  intros Hadrp Hldr Hpage Hoffset Hcell Hne Hbytes Hzero Hfuel.
  rewrite (get_selector_parsed unicode_decimal fuel doc address adrp_inst ldr_inst
             _ _ Hadrp Hldr Hpage Hoffset).
  apply (dereference_bytes fuel doc (page + offset) pointer bs); assumption.
Qed.

(** *** The driver *)

(** The loop runs by the rules of [scanned]. *)
Lemma scan_scanned (addresses : list Z) :
  forall fuel doc n,
    scanned unicode_decimal setNameAtAddress fuel doc n addresses
      (scan unicode_decimal setNameAtAddress fuel doc n addresses).1.1
      (scan unicode_decimal setNameAtAddress fuel doc n addresses).1.2
      (scan unicode_decimal setNameAtAddress fuel doc n addresses).2.
Proof.
  induction addresses as [| a rest IH]; intros fuel doc n.
  - cbn. constructor.
  - rewrite scan_cons. cbv zeta.
    destruct (startswith (getNameAtAddress doc a) (py "sub_")) eqn:Hname; cbn [negb].
    + destruct (analyse unicode_decimal fuel doc a) as [[[| | selector] | exc] |] eqn:Han.
      * specialize (IH fuel doc n).
        destruct (scan unicode_decimal setNameAtAddress fuel doc n rest)
          as [[log doc'] r].
        cbn [fst snd] in *. apply scanned_not_a_stub; assumption.
      * specialize (IH fuel doc n).
        destruct (scan unicode_decimal setNameAtAddress fuel doc n rest)
          as [[log doc'] r].
        cbn [fst snd] in *. apply scanned_no_selector; assumption.
      * destruct (setNameAtAddress doc a (selector ++ py "()"))
          as [doc1 [u | e]] eqn:Hset.
        -- specialize (IH fuel doc1 (n + 1)).
           destruct (scan unicode_decimal setNameAtAddress fuel doc1 (n + 1) rest)
             as [[log doc'] r].
           cbn [fst snd] in *. eapply scanned_renamed; eassumption.
        -- cbn [fst snd]. eapply scanned_rename_raised; eassumption.
      * specialize (IH fuel doc n).
        destruct (scan unicode_decimal setNameAtAddress fuel doc n rest)
          as [[log doc'] r].
        cbn [fst snd] in *. apply scanned_failed; assumption.
      * cbn [fst snd]. apply scanned_out_of_fuel; assumption.
    + specialize (IH fuel doc n).
      destruct (scan unicode_decimal setNameAtAddress fuel doc n rest)
        as [[log doc'] r].
      cbn [fst snd] in *. apply scanned_skipped; assumption.
Qed.

(** What a run of the whole driver is made of. *)
Lemma rename_objc_stubs_run fuel doc :
  (getSegmentByName doc (py "__TEXT") = None
   /\ rename_objc_stubs unicode_decimal setNameAtAddress fuel doc
      = ([SegmentNotFound], doc, Done (Ret tt)))
  \/ exists seg log doc' r,
       getSegmentByName doc (py "__TEXT") = Some seg
       /\ scanned unicode_decimal setNameAtAddress fuel doc 0
                  (getNamedAddresses seg) log doc' r
       /\ exists tail out,
            rename_objc_stubs unicode_decimal setNameAtAddress fuel doc
            = (log ++ tail, doc', out)
            /\ (tail = [] \/ exists k, tail = [Summary k] /\ r = Done (Ret k)).
Proof.
  unfold rename_objc_stubs.
  destruct (getSegmentByName doc (py "__TEXT")) as [seg |]; [right | left; auto].
  pose proof (scan_scanned (getNamedAddresses seg) fuel doc 0) as Hrun.
  destruct (scan unicode_decimal setNameAtAddress fuel doc 0 (getNamedAddresses seg))
    as [[log doc'] r].
  cbn [fst snd] in Hrun. exists seg, log, doc', r.
  split; [reflexivity |]. split; [exact Hrun |].
  destruct r as [[k | e] |].
  - exists [Summary k], (Done (Ret tt)). split; [reflexivity |]. right. eauto.
  - exists [], (Done (Raise e)). rewrite app_nil_r.
    split; [reflexivity | left; reflexivity].
  - exists [], OutOfFuel. rewrite app_nil_r. split; [reflexivity | left; reflexivity].
Qed.

Lemma analyse_resolved fuel doc a selector :
  analyse unicode_decimal fuel doc a = Done (Ret (Resolved selector)) ->
  is_objc_stub doc a = true
  /\ get_selector unicode_decimal fuel doc a = Done (Ret (Some selector))
  /\ exists c sel, selector = c :: sel.
Proof.
  unfold analyse. destruct (is_objc_stub doc a); cbn [negb]; [| discriminate].
  destruct (get_selector unicode_decimal fuel doc a) as [[[[| c sel] |] | e] |];
    simpl; try discriminate.
  intros [= <-]. eauto.
Qed.

(** Every rename the loop reports is for an address of the list whose name
    started with [sub_], and the new name is a selector, not empty,
    followed by a pair of parentheses. *)
Lemma scanned_renaming fuel doc n addresses log doc' r :
  scanned unicode_decimal setNameAtAddress fuel doc n addresses log doc' r ->
  forall a name new_name,
    Renaming a name new_name ∈ log ->
    a ∈ addresses
    /\ startswith name (py "sub_") = true
    /\ exists c sel, new_name = (c :: sel) ++ py "()".
Proof.
  induction 1 as [ | ? ? ? ? ? ? ? _ _ IH | | ? ? ? ? ? ? ? ? _ _ _ IH
                 | ? ? ? ? ? ? ? _ _ _ IH | ? ? ? ? ? ? ? _ _ _ IH
                 | ? ? b ? selector ? ? ? ? ? Hname Han _ _ IH
                 | ? ? b ? selector ? ? Hname Han _ ];
    intros x name new_name Hin.
  - apply elem_of_nil in Hin. contradiction.
  - apply elem_of_cons in Hin as [[=] | Hin].
    destruct (IH _ _ _ Hin) as (? & ? & ?). split; [right |]; auto.
  - apply elem_of_nil in Hin. contradiction.
  - apply elem_of_cons in Hin as [[=] | Hin].
    destruct (IH _ _ _ Hin) as (? & ? & ?). split; [right |]; auto.
  - apply elem_of_cons in Hin as [[=] | Hin].
    destruct (IH _ _ _ Hin) as (? & ? & ?). split; [right |]; auto.
  - apply elem_of_cons in Hin as [[=] | Hin].
    destruct (IH _ _ _ Hin) as (? & ? & ?). split; [right |]; auto.
  - apply elem_of_cons in Hin as [[= -> -> ->] | Hin].
    + destruct (analyse_resolved _ _ _ _ Han) as (_ & _ & c & sel & ->).
      split; [left |]. split; [exact Hname | eauto].
    + destruct (IH _ _ _ Hin) as (? & ? & ?). split; [right |]; auto.
  - apply list_elem_of_singleton in Hin as [= -> -> ->].
    destruct (analyse_resolved _ _ _ _ Han) as (_ & _ & c & sel & ->).
    split; [left |]. split; [exact Hname | eauto].
Qed.

(** The names the loop leaves behind differ from the ones it found only at
    addresses it reports as renamed. *)
Lemma scanned_changes fuel doc n addresses log doc' r :
  rename_is_local setNameAtAddress ->
  scanned unicode_decimal setNameAtAddress fuel doc n addresses log doc' r ->
  forall a, ~ renamed_in log a -> getNameAtAddress doc' a = getNameAtAddress doc a.
Proof.
  intros Hlocal.
  assert (Htail : forall ev (l : list event) a,
            ~ renamed_in (ev :: l) a -> ~ renamed_in l a).
  { intros ev l a Hnot (name & new_name & Hin). apply Hnot.
    exists name, new_name. right. exact Hin. }
  induction 1 as [ | ? ? ? ? ? ? ? _ _ IH | | ? ? ? ? ? ? ? ? _ _ _ IH
                 | ? ? ? ? ? ? ? _ _ _ IH | ? ? ? ? ? ? ? _ _ _ IH
                 | doc0 ? b ? selector doc1 ? ? ? ? _ _ Hset _ IH
                 | doc0 ? b ? selector doc1 ? _ _ Hset ];
    intros x Hnot; try reflexivity; try (apply IH; eapply Htail; exact Hnot).
  - assert (Hne : x <> b).
    { intros ->. apply Hnot. eexists _, _. left. }
    rewrite (IH x (Htail _ _ _ Hnot)).
    pose proof (Hlocal doc0 b (selector ++ py "()") x Hne) as Hkeep.
    rewrite Hset in Hkeep. exact Hkeep.
  - assert (Hne : x <> b).
    { intros ->. apply Hnot. eexists _, _. left. }
    pose proof (Hlocal doc0 b (selector ++ py "()") x Hne) as Hkeep.
    rewrite Hset in Hkeep. exact Hkeep.
Qed.

(** Over a list without repetition, every rename the loop reports is in
    the table at the end, and the old name it reports is the one the
    address had at the start. *)
Lemma scanned_applied fuel doc n addresses log doc' r :
  rename_is_local setNameAtAddress ->
  rename_applies setNameAtAddress ->
  scanned unicode_decimal setNameAtAddress fuel doc n addresses log doc' r ->
  NoDup addresses ->
  forall a name new_name,
    Renaming a name new_name ∈ log ->
    name = getNameAtAddress doc a /\ getNameAtAddress doc' a = new_name.
Proof.
  intros Hlocal Happlies.
  induction 1 as [ | ? ? ? ? ? ? ? _ _ IH | | ? ? ? ? ? ? ? ? _ _ _ IH
                 | ? ? ? ? ? ? ? _ _ _ IH | ? ? ? ? ? ? ? _ _ _ IH
                 | doc0 ? b rest selector doc1 ? log0 doc2 ? _ _ Hset Hrun IH
                 | doc0 ? b ? selector doc1 ? _ _ Hset ];
    intros Hnodup x name new_name Hin;
    try (apply NoDup_cons in Hnodup as [Hfresh Hnodup]).
  - apply elem_of_nil in Hin. contradiction.
  - apply elem_of_cons in Hin as [[=] | Hin]. exact (IH Hnodup _ _ _ Hin).
  - apply elem_of_nil in Hin. contradiction.
  - apply elem_of_cons in Hin as [[=] | Hin]. exact (IH Hnodup _ _ _ Hin).
  - apply elem_of_cons in Hin as [[=] | Hin]. exact (IH Hnodup _ _ _ Hin).
  - apply elem_of_cons in Hin as [[=] | Hin]. exact (IH Hnodup _ _ _ Hin).
  - pose proof (Happlies doc0 b (selector ++ py "()")) as Hnew.
    rewrite Hset in Hnew. cbn [fst] in Hnew.
    apply elem_of_cons in Hin as [[= -> -> ->] | Hin].
    + split; [reflexivity |].
      rewrite (scanned_changes _ _ _ _ _ _ _ Hlocal Hrun b); [exact Hnew |].
      intros (name & new_name & Hin).
      destruct (scanned_renaming _ _ _ _ _ _ _ Hrun _ _ _ Hin) as [Hb _].
      contradiction.
    + destruct (scanned_renaming _ _ _ _ _ _ _ Hrun _ _ _ Hin) as [Hx _].
      assert (Hne : x <> b) by (intros ->; contradiction).
      destruct (IH Hnodup _ _ _ Hin) as [-> Hend]. split; [| exact Hend].
      pose proof (Hlocal doc0 b (selector ++ py "()") x Hne) as Hkeep.
      rewrite Hset in Hkeep. exact Hkeep.
  - pose proof (Happlies doc0 b (selector ++ py "()")) as Hnew.
    rewrite Hset in Hnew. cbn [fst] in Hnew.
    apply list_elem_of_singleton in Hin as [= -> -> ->].
    split; [reflexivity | exact Hnew].
Qed.

(** The events follow the list of addresses, one event per address, up to
    where the run ended. *)
Lemma scanned_prefix fuel doc n addresses log doc' r :
  scanned unicode_decimal setNameAtAddress fuel doc n addresses log doc' r ->
  omap event_address log `prefix_of` addresses.
Proof.
  induction 1; cbn [omap list_omap event_address];
    first [ apply prefix_nil
          | apply prefix_cons; first [assumption | apply prefix_nil] ].
Qed.

Lemma scan_all_skipped (addresses : list Z) :
  forall fuel doc n,
    (forall a, a ∈ addresses ->
       startswith (getNameAtAddress doc a) (py "sub_") = false) ->
    scan unicode_decimal setNameAtAddress fuel doc n addresses
    = (map Skipped addresses, doc, Done (Ret n)).
Proof.
  induction addresses as [| a rest IH]; intros fuel doc n Hnames; [reflexivity |].
  rewrite scan_cons. cbv zeta.
  rewrite (Hnames a) by left. cbn [negb].
  rewrite IH by (intros b Hb; apply Hnames; right; exact Hb).
  reflexivity.
Qed.

(** X12.  When no named address of the segment carries a [sub_] name, the
    driver changes nothing and analyses nothing, whatever the host and the
    image: every address is skipped, the document is the one it found, and
    the count reported is zero. *)
Theorem rename_objc_stubs_all_named
    (fuel : nat) (doc : Document) (seg : Segment) :
  getSegmentByName doc (py "__TEXT") = Some seg ->
  (forall a, a ∈ getNamedAddresses seg ->
     startswith (getNameAtAddress doc a) (py "sub_") = false) ->
  rename_objc_stubs unicode_decimal setNameAtAddress fuel doc
  = (map Skipped (getNamedAddresses seg) ++ [Summary 0], doc, Done (Ret tt)).
Proof.
  intros Hseg Hnames. unfold rename_objc_stubs. rewrite Hseg.
  rewrite (scan_all_skipped _ fuel doc 0 Hnames). reflexivity.
Qed.

(** X13.  A stub whose pointer leads to an empty string is not renamed:
    the empty selector counts as a failed extraction, the loop goes on
    with the same document and the same counter. *)
Theorem scan_skips_empty_selector
    (fuel : nat) (doc : Document) (n a : Z) (rest : list Z)
    (adrp_inst ldr_inst : Instruction) (page offset pointer : Z) :
  startswith (getNameAtAddress doc a) (py "sub_") = true ->
  is_objc_stub doc a = true ->
  fetch doc a = Some adrp_inst ->
  fetch doc (a + 4) = Some ldr_inst ->
  get_page_address unicode_decimal adrp_inst = Ret (Some page) ->
  parse_offset unicode_decimal (str (getFormattedArgument ldr_inst 1))
    = Ret (Some offset) ->
  readUInt64LE doc (page + offset) = Ret (HInt pointer) ->
  pointer <> 0 ->
  readByte doc pointer = Ret (HInt 0) ->
  (0 < fuel)%nat ->
  scan unicode_decimal setNameAtAddress fuel doc n (a :: rest) =
    let '(log, doc', r) := scan unicode_decimal setNameAtAddress fuel doc n rest in
    (ExtractFailed a (getNameAtAddress doc a) :: log, doc', r).
Proof.
  intros Hname Hstub Hadrp Hldr Hpage Hoffset Hcell Hne Hzero Hfuel.
  assert (Hsel : get_selector unicode_decimal fuel doc a = Done (Ret (Some []))).
  { rewrite (get_selector_parsed unicode_decimal fuel doc a adrp_inst ldr_inst
               _ _ Hadrp Hldr Hpage Hoffset).
    apply (dereference_bytes fuel doc (page + offset) pointer []);
      try assumption.
    - intros i b Hi. rewrite lookup_nil in Hi. discriminate.
    - rewrite <- Hzero. f_equal. simpl. lia. }
  rewrite scan_cons. cbv zeta. rewrite Hname. cbn [negb].
  unfold analyse. rewrite Hstub, Hsel. reflexivity.
Qed.

(** X14.  The driver end to end on one stub: for a [sub_] name whose five
    instructions match, whose operands parse, and whose pointer leads to
    bytes that decode to a non-empty selector, the loop asks the host to
    name the address [selector()]; it counts the rename and goes on if
    the host returns, and ends with the host's exception if it raises. *)
Theorem scan_renames_stub
    (fuel : nat) (doc : Document) (n a : Z) (rest : list Z)
    (adrp_inst ldr_inst : Instruction) (page offset pointer : Z)
    (bs : list Z) (c : Z) (sel : pystr) :
  startswith (getNameAtAddress doc a) (py "sub_") = true ->
  is_objc_stub doc a = true ->
  fetch doc a = Some adrp_inst ->
  fetch doc (a + 4) = Some ldr_inst ->
  get_page_address unicode_decimal adrp_inst = Ret (Some page) ->
  parse_offset unicode_decimal (str (getFormattedArgument ldr_inst 1))
    = Ret (Some offset) ->
  readUInt64LE doc (page + offset) = Ret (HInt pointer) ->
  pointer <> 0 ->
  bytes_from doc pointer bs ->
  readByte doc (pointer + Z.of_nat (length bs)) = Ret (HInt 0) ->
  utf8_decode bs = Some (c :: sel) ->
  (length bs < fuel)%nat ->
  scan unicode_decimal setNameAtAddress fuel doc n (a :: rest) =
    match setNameAtAddress doc a ((c :: sel) ++ py "()") with
    | (doc1, Ret _) =>
        let '(log, doc', r) :=
            scan unicode_decimal setNameAtAddress fuel doc1 (n + 1) rest in
        (Renaming a (getNameAtAddress doc a) ((c :: sel) ++ py "()") :: log,
         doc', r)
    | (doc1, Raise e) =>
        ([Renaming a (getNameAtAddress doc a) ((c :: sel) ++ py "()")],
         doc1, Done (Raise e))
    end.
Proof.
  intros Hname Hstub Hadrp Hldr Hpage Hoffset Hcell Hne Hbytes Hzero Hdec Hfuel.
  assert (Hsel : get_selector unicode_decimal fuel doc a
                 = Done (Ret (Some (c :: sel)))).
  { rewrite (get_selector_parsed unicode_decimal fuel doc a adrp_inst ldr_inst
               _ _ Hadrp Hldr Hpage Hoffset).
    rewrite (dereference_bytes fuel doc (page + offset) pointer bs
               Hcell Hne Hbytes Hzero Hfuel), Hdec.
    reflexivity. }
  rewrite scan_cons. cbv zeta. rewrite Hname. cbn [negb].
  unfold analyse. rewrite Hstub, Hsel. reflexivity.
Qed.

(** Among the events of the loop and the summary the driver adds, the
    renames are those of the loop. *)
Lemma renaming_in_run (log tail : list event) a name new_name :
  tail = [] \/ (exists k, tail = [Summary k]) ->
  Renaming a name new_name ∈ log ++ tail -> Renaming a name new_name ∈ log.
Proof.
  intros Htail Hin. apply elem_of_app in Hin as [Hin | Hin]; [exact Hin |].
  destruct Htail as [-> | [k ->]].
  - apply elem_of_nil in Hin. contradiction.
  - apply list_elem_of_singleton in Hin. discriminate.
Qed.


(** X16.  For a host whose rename is local, the names after the driver ran
    differ from the names before only at addresses the driver reports as
    renamed. *)
Theorem rename_objc_stubs_changes_only_renamed
    (fuel : nat) (doc : Document) (a : Z) :
  rename_is_local setNameAtAddress ->
  ~ renamed_in (rename_objc_stubs unicode_decimal setNameAtAddress fuel doc).1.1 a ->
  getNameAtAddress (rename_objc_stubs unicode_decimal setNameAtAddress fuel doc).1.2 a
  = getNameAtAddress doc a.
Proof.
  intros Hlocal Hnot.
  destruct (rename_objc_stubs_run fuel doc)
    as [[_ Hrun] | (seg & log & doc' & r & Hseg & Hscan & tail & out & Hrun & Htail)];
    rewrite Hrun in *; cbn [fst snd] in *; [reflexivity |].
  apply (scanned_changes _ _ _ _ _ _ _ Hlocal Hscan).
  intros (name & new_name & Hin). apply Hnot.
  exists name, new_name. apply elem_of_app. left. exact Hin.
Qed.

(** X17.  For a host whose rename is local and puts the name in place,
    and a segment that lists no address twice, every rename the driver
    reports is in the symbol table afterwards, and the old name it reports
    is the one the address had before the run. *)
Theorem rename_objc_stubs_applies_renames
    (fuel : nat) (doc : Document) (seg : Segment) (a : Z) (name new_name : pystr) :
  rename_is_local setNameAtAddress ->
  rename_applies setNameAtAddress ->
  getSegmentByName doc (py "__TEXT") = Some seg ->
  NoDup (getNamedAddresses seg) ->
  Renaming a name new_name
    ∈ (rename_objc_stubs unicode_decimal setNameAtAddress fuel doc).1.1 ->
  name = getNameAtAddress doc a
  /\ getNameAtAddress
       (rename_objc_stubs unicode_decimal setNameAtAddress fuel doc).1.2 a
     = new_name.
Proof.
  intros Hlocal Happlies Hseg Hnodup Hin.
  destruct (rename_objc_stubs_run fuel doc)
    as [[Hnone _] | (seg' & log & doc' & r & Hseg' & Hscan & tail & out & Hrun & Htail)];
    [congruence |].
  rewrite Hseg in Hseg'. injection Hseg' as <-.
  rewrite Hrun in *. cbn [fst snd] in *.
  apply renaming_in_run in Hin;
    [| destruct Htail as [-> | (k & -> & _)]; eauto].
  exact (scanned_applied _ _ _ _ _ _ _ Hlocal Happlies Hscan Hnodup _ _ _ Hin).
Qed.

Lemma scanned_no_summary fuel doc n addresses log doc' r :
  scanned unicode_decimal setNameAtAddress fuel doc n addresses log doc' r ->
  forall k, Summary k ∉ log.
Proof.
  induction 1; intros k Hin;
    repeat match goal with
      | H : _ ∈ [] |- _ => apply elem_of_nil in H; contradiction
      | H : _ ∈ _ :: _ |- _ => apply elem_of_cons in H as [H | H]; [discriminate H |]
      | IH : forall k, Summary k ∉ _, H : Summary _ ∈ _ |- _ => exact (IH _ H)
      end.
Qed.

Lemma renames_at_most_events (log : list event) :
  (length (List.filter is_renaming log) <= length (omap event_address log))%nat.
Proof.
  induction log as [| ev log IH]; [reflexivity |].
  destruct ev; cbn [List.filter is_renaming omap list_omap event_address length];
    lia.
Qed.

(** X18.  The events of a run follow the named addresses of the segment
    in their order, one event per address up to where the run ended, and
    the count the driver reports lies between zero and the number of
    named addresses. *)
Theorem rename_objc_stubs_log_in_order
    (fuel : nat) (doc : Document) (seg : Segment) :
  getSegmentByName doc (py "__TEXT") = Some seg ->
  omap event_address (rename_objc_stubs unicode_decimal setNameAtAddress fuel doc).1.1
    `prefix_of` getNamedAddresses seg
  /\ forall k,
       Summary k ∈ (rename_objc_stubs unicode_decimal setNameAtAddress fuel doc).1.1 ->
       0 <= k <= Z.of_nat (length (getNamedAddresses seg)).
Proof.
  intros Hseg. unfold rename_objc_stubs. rewrite Hseg.
  pose proof (scan_scanned (getNamedAddresses seg) fuel doc 0) as Hrun.
  pose proof (scan_outcome unicode_decimal setNameAtAddress
                (getNamedAddresses seg) fuel doc 0) as Hends.
  destruct (scan unicode_decimal setNameAtAddress fuel doc 0 (getNamedAddresses seg))
    as [[log doc'] r].
  cbn [fst snd] in Hrun.
  assert (Hnone : forall k, Summary k ∈ log -> False)
    by (intros k; exact (scanned_no_summary _ _ _ _ _ _ _ Hrun k)).
  apply scanned_prefix in Hrun.
  destruct r as [[n | e] |]; cbn [fst].
  - destruct Hends as [-> Haddr]. rewrite omap_app, Haddr. cbn. rewrite app_nil_r.
    split; [reflexivity |].
    intros k Hin. apply elem_of_app in Hin as [Hin | Hin];
      [destruct (Hnone k Hin) |].
    apply list_elem_of_singleton in Hin as [= ->].
    pose proof (renames_at_most_events log) as Hle. rewrite Haddr in Hle. lia.
  - split; [exact Hrun |]. intros k Hin. destruct (Hnone k Hin).
  - split; [exact Hrun |]. intros k Hin. destruct (Hnone k Hin).
Qed.

End FurtherProperties.

(** ** Concrete runs of the further properties *)

(** The bytes of a literal run lie in a sample memory. *)
Ltac bytes_here :=
  let i := fresh "i" in
  let b := fresh "b" in
  let H := fresh "H" in
  intros i b H;
  repeat (destruct i as [| i]; simpl in H;
          [injection H as <-; split; [vm_compute; reflexivity | lia] |]);
  simpl in H; rewrite lookup_nil in H; discriminate H.

(** A literal run of hexadecimal digits. *)
Ltac digits_here := repeat constructor; eexists; reflexivity.

(** An event is in a literal log. *)
Ltac event_here :=
  vm_compute; repeat first [apply list_elem_of_here | apply list_elem_of_further].

Lemma read_c_string_read_raises_witness :
  readByte faulting_document 0x400002 = Raise HostError
  /\ read_c_string 3 faulting_document 0x400000 = Done (Raise HostError).
Proof.
  split; [vm_compute; reflexivity |].
  apply (read_c_string_read_raises 3 faulting_document 0x400000 [97; 98] HostError).
  - bytes_here.
  - vm_compute. reflexivity.
  - simpl. lia.
Defined.

Lemma read_c_string_false_ends_witness :
  readByte falsy_document 0x400002 = Ret HFalse
  /\ read_c_string 3 falsy_document 0x400000 = Done (Ret (py "ab")).
Proof.
  split; [vm_compute; reflexivity |].
  apply (read_c_string_false_ends 3 falsy_document 0x400000 [97; 98]).
  - bytes_here.
  - vm_compute. reflexivity.
  - simpl. lia.
Defined.

(** Two memories that differ only beyond the terminator of [foo]. *)
Lemma read_c_string_local_witness :
  readByte sample_document 0x300000 <> readByte empty_selector_document 0x300000
  /\ read_c_string 4 sample_document 0x200000
     = read_c_string 10 empty_selector_document 0x200000.
Proof.
  split; [vm_compute; discriminate |].
  apply (read_c_string_local sample_document empty_selector_document 0x200000 3 4 10).
  - intros i Hi.
    do 4 (destruct i as [| i]; [vm_compute; reflexivity |]). lia.
  - vm_compute. reflexivity.
  - lia.
  - lia.
Defined.

(** [ldrsw], [ldrb] and [brk] pass for [ldr], [ldr] and [br]. *)
Lemma is_objc_stub_accepts_suffixes_witness :
  map getInstructionString lookalike_code
  = [ py "adrp       x1, #0x100000"; py "ldrsw      x1, [x8, #0x18]";
      py "adrp       x16, #0x104000"; py "ldrb       w16, [x16, #0x8]";
      py "brk        #0x1" ]
  /\ is_objc_stub lookalike_document 0x1000 = true.
Proof.
  split; [reflexivity |].
  apply is_objc_stub_accepts_suffixes.
  intros k expected Hk.
  do 5 (destruct k as [| k];
        [injection Hk as <-; eexists; eexists;
         split; [vm_compute; reflexivity | vm_compute; reflexivity] |]).
  simpl in Hk. rewrite lookup_nil in Hk. discriminate.
Defined.

Lemma get_page_address_hex_witness :
  signed_hex (py "0x100000") 0x100000
  /\ get_page_address ucd_decimal stub_adrp = Ret (Some 0x100000).
Proof.
  assert (Hhex : signed_hex (py "0x100000") 0x100000).
  { left. exists (py "0x"), (py "100000").
    split; [right; left; reflexivity |]. split; [discriminate |].
    split; [digits_here |]. split; reflexivity. }
  split; [exact Hhex |].
  apply (get_page_address_hex ucd_decimal stub_adrp 35 (py "0x100000") 0x100000);
    [reflexivity | exact Hhex].
Defined.

(** A minus sign gives a negative offset. *)
Lemma parse_offset_hex_witness :
  memory_operand (py "[x8, #-0x18]") (py "x8") (py " #-0x18")
  /\ signed_hex (py "-0x18") (-0x18)
  /\ parse_offset ucd_decimal (py "[x8, #-0x18]") = Ret (Some (-0x18)).
Proof.
  assert (Hshape : memory_operand (py "[x8, #-0x18]") (py "x8") (py " #-0x18")).
  { exists [], []. split; [reflexivity |]. repeat split; absent. }
  assert (Hhex : signed_hex (py "-0x18") (-0x18)).
  { right. right. exists (py "0x18"), 0x18. split; [reflexivity |].
    split; [| reflexivity].
    exists (py "0x"), (py "18").
    split; [right; left; reflexivity |]. split; [discriminate |].
    split; [digits_here |]. split; reflexivity. }
  split; [exact Hshape |]. split; [exact Hhex |].
  apply (parse_offset_hex ucd_decimal (py "[x8, #-0x18]") (py "x8") (py " #-0x18")
           35 (py "-0x18") (-0x18));
    [exact Hshape | vm_compute; reflexivity | exact Hhex].
Defined.

Lemma get_selector_missing_ldr_operand_witness :
  getFormattedArgument ldr_no_operand 1 = None
  /\ get_selector ucd_decimal 4 no_operand_document 0x1000 = Done (Ret None).
Proof.
  split; [reflexivity |].
  refine (proj2 (get_selector_missing_ldr_operand ucd_decimal 4 no_operand_document
                   0x1000 stub_adrp ldr_no_operand (py "#0x100000") _ _ _ _));
    vm_compute; reflexivity.
Defined.

Lemma get_selector_sound_witness :
  get_selector ucd_decimal 4 sample_document 0x1000 = Done (Ret (Some (py "foo")))
  /\ exists adrp_inst ldr_inst page offset pointer bs,
       fetch sample_document 0x1000 = Some adrp_inst
       /\ fetch sample_document (0x1000 + 4) = Some ldr_inst
       /\ get_page_address ucd_decimal adrp_inst = Ret (Some page)
       /\ parse_offset ucd_decimal (str (getFormattedArgument ldr_inst 1))
          = Ret (Some offset)
       /\ readUInt64LE sample_document (page + offset) = Ret (HInt pointer)
       /\ pointer <> 0
       /\ bytes_from sample_document pointer bs
       /\ (exists v,
             readByte sample_document (pointer + Z.of_nat (length bs)) = Ret v
             /\ eq_zero v = true)
       /\ decode bs = Ret (py "foo").
Proof.
  assert (Hsel : get_selector ucd_decimal 4 sample_document 0x1000
                 = Done (Ret (Some (py "foo")))) by (vm_compute; reflexivity).
  split; [exact Hsel |].
  exact (get_selector_sound ucd_decimal 4 sample_document 0x1000 (py "foo") Hsel).
Defined.

Lemma get_selector_reads_selector_witness :
  bytes_from sample_document 0x200000 [102; 111; 111]
  /\ get_selector ucd_decimal 4 sample_document 0x1000
     = match utf8_decode [102; 111; 111] with
       | Some selector => Done (Ret (Some selector))
       | None => Done (Raise UnicodeDecodeError)
       end.
Proof.
  assert (Hbytes : bytes_from sample_document 0x200000 [102; 111; 111])
    by bytes_here.
  split; [exact Hbytes |].
  apply (get_selector_reads_selector ucd_decimal 4 sample_document 0x1000
           stub_adrp stub_ldr 0x100000 0x18 0x200000 [102; 111; 111]).
  - vm_compute. reflexivity.
  - vm_compute. reflexivity.
  - vm_compute. reflexivity.
  - vm_compute. reflexivity.
  - vm_compute. reflexivity.
  - discriminate.
  - exact Hbytes.
  - vm_compute. reflexivity.
  - simpl. lia.
Defined.

Lemma rename_objc_stubs_all_named_witness :
  getNamedAddresses (getCurrentSegment named_document) = [0x1000; 0x2000]
  /\ is_objc_stub named_document 0x1000 = true
  /\ rename_objc_stubs ucd_decimal set_name 4 named_document
     = ([Skipped 0x1000; Skipped 0x2000; Summary 0], named_document, Done (Ret tt)).
Proof.
  split; [reflexivity |]. split; [vm_compute; reflexivity |].
  apply (rename_objc_stubs_all_named ucd_decimal set_name 4 named_document
           (getCurrentSegment named_document) eq_refl).
  intros a Ha. change (a ∈ [0x1000; 0x2000]) in Ha.
  apply elem_of_cons in Ha as [-> | Ha]; [vm_compute; reflexivity |].
  apply list_elem_of_singleton in Ha as ->. vm_compute. reflexivity.
Defined.

Lemma scan_skips_empty_selector_witness :
  readUInt64LE empty_selector_document 0x100018 = Ret (HInt 0x200003)
  /\ readByte empty_selector_document 0x200003 = Ret (HInt 0)
  /\ scan ucd_decimal set_name 4 empty_selector_document 0 [0x1000]
     = ([ExtractFailed 0x1000 (py "sub_1000")], empty_selector_document,
        Done (Ret 0)).
Proof.
  split; [vm_compute; reflexivity |]. split; [vm_compute; reflexivity |].
  apply (scan_skips_empty_selector ucd_decimal set_name 4 empty_selector_document
           0 0x1000 [] stub_adrp stub_ldr 0x100000 0x18 0x200003).
  - vm_compute. reflexivity.
  - vm_compute. reflexivity.
  - vm_compute. reflexivity.
  - vm_compute. reflexivity.
  - vm_compute. reflexivity.
  - vm_compute. reflexivity.
  - vm_compute. reflexivity.
  - discriminate.
  - vm_compute. reflexivity.
  - lia.
Defined.

Lemma scan_renames_stub_witness :
  utf8_decode [102; 111; 111] = Some (py "foo")
  /\ scan ucd_decimal set_name 4 sample_document 0 [0x1000]
     = ([Renaming 0x1000 (py "sub_1000") (py "foo()")],
        (set_name sample_document 0x1000 (py "foo()")).1, Done (Ret 1)).
Proof.
  split; [reflexivity |].
  apply (scan_renames_stub ucd_decimal set_name 4 sample_document
           0 0x1000 [] stub_adrp stub_ldr 0x100000 0x18 0x200000
           [102; 111; 111] 102 [111; 111]).
  - vm_compute. reflexivity.
  - vm_compute. reflexivity.
  - vm_compute. reflexivity.
  - vm_compute. reflexivity.
  - vm_compute. reflexivity.
  - vm_compute. reflexivity.
  - vm_compute. reflexivity.
  - discriminate.
  - bytes_here.
  - vm_compute. reflexivity.
  - reflexivity.
  - simpl. lia.
Defined.


(** The analysis of [0x2000] fails, and its name stays. *)
Lemma rename_objc_stubs_changes_only_renamed_witness :
  ~ renamed_in (rename_objc_stubs ucd_decimal set_name 4 sample_document).1.1 0x2000
  /\ getNameAtAddress
       (rename_objc_stubs ucd_decimal set_name 4 sample_document).1.2 0x2000
     = getNameAtAddress sample_document 0x2000.
Proof.
  assert (Hnot : ~ renamed_in
                   (rename_objc_stubs ucd_decimal set_name 4 sample_document).1.1
                   0x2000).
  { intros (name & new_name & Hin). vm_compute in Hin.
    repeat (apply elem_of_cons in Hin as [Hin | Hin]; [discriminate Hin |]).
    apply elem_of_nil in Hin. exact Hin. }
  split; [exact Hnot |].
  apply (rename_objc_stubs_changes_only_renamed ucd_decimal set_name 4
           sample_document 0x2000 set_name_is_local Hnot).
Defined.

Lemma set_name_applies : rename_applies set_name.
Proof. intros d a name. cbn. rewrite Z.eqb_refl. reflexivity. Qed.

Lemma rename_objc_stubs_applies_renames_witness :
  NoDup (getNamedAddresses (getCurrentSegment sample_document))
  /\ py "sub_3000" = getNameAtAddress sample_document 0x3000
  /\ getNameAtAddress
       (rename_objc_stubs ucd_decimal set_name 4 sample_document).1.2 0x3000
     = py "foo()".
Proof.
  assert (Hnodup : NoDup (getNamedAddresses (getCurrentSegment sample_document))).
  { change (NoDup [0x1000; 0x2000; 0x3000; 0x4000]).
    repeat (apply NoDup_cons_2;
            [intros H;
             repeat (apply elem_of_cons in H as [H | H]; [discriminate H |]);
             apply elem_of_nil in H; exact H |]).
    apply NoDup_nil_2. }
  split; [exact Hnodup |].
  apply (rename_objc_stubs_applies_renames ucd_decimal set_name 4 sample_document
           (getCurrentSegment sample_document) 0x3000 (py "sub_3000") (py "foo()")
           set_name_is_local set_name_applies eq_refl Hnodup).
  event_here.
Defined.

Lemma rename_objc_stubs_log_in_order_witness :
  omap event_address (rename_objc_stubs ucd_decimal set_name 4 sample_document).1.1
    `prefix_of` [0x1000; 0x2000; 0x3000; 0x4000]
  /\ forall k,
       Summary k ∈ (rename_objc_stubs ucd_decimal set_name 4 sample_document).1.1 ->
       0 <= k <= 4.
Proof.
  exact (rename_objc_stubs_log_in_order ucd_decimal set_name 4 sample_document
           (getCurrentSegment sample_document) eq_refl).
Defined.
